(** * The run route of the agentic video pipeline

    A shallow embedding of [app/api/run/route.ts]: the step log and its
    update operation, the four collaborators' wrappers (script draft,
    script enhancement, asset generation, video synthesis, YouTube
    upload) and the [POST] handler that sequences them.

    Conventions of the embedding.
    - A JavaScript string is a [string]; one character stands for one
      UTF-16 code unit, so [String.length] is the [length] property.
    - A [Buffer] is a list of bytes.
    - Everything outside the route (process environment, the request
      body, the OpenAI, ffmpeg, file-system and YouTube calls, and the
      library functions of the runtime whose text is not in the route)
      is a field of the record [World].  An awaited call either
      resolves to a value or rejects with a thrown value.
    - Paths are those of [node:path] on a POSIX system.  Whether a
      path lies inside a directory is read from the segments that
      [path.normalize] leaves of both; links are not followed.
    - The route mutates one [log] array and leaves through [return] or
      [throw]; this is a state monad with an exception result.  The
      state also records every update of the log and every call that
      left the route, in order. *)

From Stdlib Require Import ZArith QArith Ascii String List Lia.
From Stdlib.Strings Require Import Byte.
From Stdlib Require Import DecimalString.
From stdpp Require Import base tactics option list strings gmap sets.

Local Set Warnings "-register-all".
Local Open Scope string_scope.
Local Open Scope list_scope.
Local Open Scope Z_scope.

(** ** Thrown values and results of awaited calls *)

(** What a [catch] clause can receive: an [Error] instance with its
    [message], or any other thrown value. *)
Inductive Exn : Type :=
| JsError (message : string)
| JsThrown.

Inductive Result (A : Type) : Type :=
| Ok (a : A)
| Throw (e : Exn).
Arguments Ok {A} a.
Arguments Throw {A} e.

(** ** Strings of the runtime *)

Module Js.

(** [!s] for a value that is a string, [null] or [undefined]. *)
Definition falsy (s : option string) : bool :=
  match s with
  | None => true
  | Some EmptyString => true
  | Some _ => false
  end.

Fixpoint take (n : nat) (s : string) : string :=
  match n, s with
  | O, _ => EmptyString
  | S _, EmptyString => EmptyString
  | S n', String c s' => String c (take n' s')
  end.

Fixpoint drop (n : nat) (s : string) : string :=
  match n, s with
  | O, _ => s
  | S _, EmptyString => EmptyString
  | S n', String _ s' => drop n' s'
  end.

(** [String.prototype.slice(start, end)] on integer arguments:
    a negative index counts from the end, both are clamped to the
    string, an empty range gives the empty string. *)
Definition clamp_index (len i : Z) : Z :=
  if i <? 0 then Z.max (len + i) 0 else Z.min i len.

Definition slice (s : string) (b e : Z) : string :=
  let len := Z.of_nat (String.length s) in
  let from := clamp_index len b in
  let to := clamp_index len e in
  take (Z.to_nat (Z.max (to - from) 0)) (drop (Z.to_nat from) s).

(** [Array.prototype.join]. *)
Fixpoint join (sep : string) (l : list string) : string :=
  match l with
  | [] => EmptyString
  | [x] => x
  | x :: rest => x +:+ sep +:+ join sep rest
  end.

(** The class [\s] of a regular expression, on the code units below
    256: tab, line feed, vertical tab, form feed, carriage return,
    space and no-break space. *)
Definition is_space (c : ascii) : bool :=
  let n := nat_of_ascii c in
  ((9 <=? n)%nat && (n <=? 13)%nat) || (n =? 32)%nat || (n =? 160)%nat.

(** [s.split(/\s+/).length]: one more than the number of maximal
    runs of white space.  [in_run] tells that the previous character
    was white space. *)
Fixpoint count_runs (in_run : bool) (s : string) : N :=
  match s with
  | EmptyString => 0%N
  | String c s' =>
      if is_space c
      then (if in_run then count_runs true s' else N.succ (count_runs true s'))
      else count_runs false s'
  end.

Definition split_ws_length (s : string) : N := N.succ (count_runs false s).

(** [String(n)] for a non-negative integer. *)
Definition string_of_N (n : N) : string :=
  NilEmpty.string_of_uint (N.to_uint n).

Definition pad2 (n : N) : string :=
  if (n <? 10)%N then "0" +:+ string_of_N n else string_of_N n.

(** [(bytes / (1024 * 1024)).toFixed(2)].  The quotient of an integer
    below 2^53 by 2^20 is exact in a double, and [toFixed] picks the
    integer [k] nearest to [100 * x], the larger one on a tie, so
    [k = floor ((200 * bytes + 2^20) / 2^21)]. *)
Definition megabytes_toFixed2 (bytes : N) : string :=
  let k := ((200 * bytes + 1048576) / 2097152)%N in
  string_of_N (k / 100) +:+ "." +:+ pad2 (k mod 100).

End Js.

(** ** The step log *)

Inductive StepStatus : Type := idle | working | done | error.

Record StepLog : Type := mkStepLog {
  id : string;
  label : string;
  status : StepStatus;
  detail : option string;
}.

Definition STEP_TEMPLATE : list StepLog :=
  [ mkStepLog "script" "Generate base script" idle None;
    mkStepLog "enhance" "Enhance script" idle None;
    mkStepLog "video" "Render video" idle None;
    mkStepLog "upload" "Publish to YouTube" idle None ].

(** [STEP_TEMPLATE.map((step) => ({ ...step }))]: a fresh array of fresh
    objects with the same fields. *)
Definition cloneStepLog : list StepLog :=
  map (fun step => mkStepLog (id step) (label step) (status step) (detail step))
      STEP_TEMPLATE.

(** [setStepStatus]: [log.find] gives the first entry whose [id] is
    the one asked for (the entries are objects, as the type of the
    array says, so [step?.id] reads the [id]); that entry is an object
    of the array, so the two assignments change the array at its place.
    Without a match the function returns at once and the array is as it
    was. *)
Fixpoint setStepStatus (log : list StepLog) (i : string) (st : StepStatus)
    (d : option string) : list StepLog :=
  match log with
  | [] => []
  | step :: rest =>
      if String.eqb (id step) i
      then mkStepLog (id step) (label step) st d :: rest
      else step :: setStepStatus rest i st d
  end.

(** [status === "working"]. *)
Definition is_working (st : StepStatus) : bool :=
  match st with
  | working => true
  | _ => false
  end.

(** [log.find((step) => step.status === "working")]. *)
Definition find_working (log : list StepLog) : option StepLog :=
  List.find (fun step => is_working (status step)) log.

(** ** The request body and its schema *)

Definition Buffer : Type := list byte.

(** A number of a parsed JSON text: a finite value, or an infinity when
    the literal overflows. *)
Inductive JsNumber : Type :=
| Finite (q : Q)
| PosInfinity
| NegInfinity.

(** The value [request.json()] resolves to.  The fields of an object are
    listed with the key that a property read finds first. *)
Inductive Json : Type :=
| JNull
| JBool (b : bool)
| JNum (n : JsNumber)
| JStr (s : string)
| JArr (items : list Json)
| JObj (fields : list (string * Json)).

Fixpoint get_field (fields : list (string * Json)) (key : string) : option Json :=
  match fields with
  | [] => None
  | (k, v) :: rest => if String.eqb k key then Some v else get_field rest key
  end.

(** What a failed check of the schema reports to the error map of the
    validation library, which turns it into a message unless the schema
    gives one. *)
Inductive ZodIssue : Type :=
| invalid_type (expected received : string)
| too_small (kind : string) (minimum : Z)
| too_big (kind : string) (maximum : Z).

Definition parsed_type (v : option Json) : string :=
  match v with
  | None => "undefined"
  | Some JNull => "null"
  | Some (JBool _) => "boolean"
  | Some (JNum _) => "number"
  | Some (JStr _) => "string"
  | Some (JArr _) => "array"
  | Some (JObj _) => "object"
  end.

Record PipelineRequest : Type := mkRequest {
  topic : string;
  tone : string;
  durationSeconds : Q;
  audience : string;
  callToAction : string;
}.

Inductive SafeParse : Type :=
| ParseSuccess (data : PipelineRequest)
| ParseFailure (issue_messages : list string).

Section Schema.

(** The error map in force: the message of an issue that carries none
    of its own. *)
Variable error_map : ZodIssue -> string.

Definition message_of (custom : option string) (issue : ZodIssue) : string :=
  match custom with
  | Some m => m
  | None => error_map issue
  end.

(** [z.string()] followed by [.min] and [.max] checks: a value that is
    not a string is one issue; on a string every check runs. *)
Definition z_string (min : option (Z * option string)) (max : option Z)
    (v : option Json) : list string * option string :=
  match v with
  | Some (JStr s) =>
      let len := Z.of_nat (String.length s) in
      let small :=
        match min with
        | Some (m, custom) =>
            if len <? m then [message_of custom (too_small "string" m)] else []
        | None => []
        end in
      let big :=
        match max with
        | Some m => if m <? len then [error_map (too_big "string" m)] else []
        | None => []
        end in
      (small ++ big, Some s)
  | _ => ([error_map (invalid_type "string" (parsed_type v))], None)
  end.

(** [z.number().min(lo).max(hi)]. *)
Definition z_number (lo hi : Z) (v : option Json) : list string * option Q :=
  match v with
  | Some (JNum (Finite q)) =>
      let small :=
        if Qle_bool (inject_Z lo) q then [] else [error_map (too_small "number" lo)] in
      let big :=
        if Qle_bool q (inject_Z hi) then [] else [error_map (too_big "number" hi)] in
      (small ++ big, Some q)
  | Some (JNum PosInfinity) => ([error_map (too_big "number" hi)], None)
  | Some (JNum NegInfinity) => ([error_map (too_small "number" lo)], None)
  | _ => ([error_map (invalid_type "number" (parsed_type v))], None)
  end.

(** [requestSchema.safeParse(json)]: the keys are checked in the
    order of the schema and every issue is kept. *)
Definition requestSchema_safeParse (json : Json) : SafeParse :=
  match json with
  | JObj fields =>
      let '(i1, topic) :=
        z_string (Some (8, Some "Topic must be at least 8 characters.")) None
                 (get_field fields "topic") in
      let '(i2, tone) :=
        z_string (Some (3, None)) (Some 64) (get_field fields "tone") in
      let '(i3, duration) :=
        z_number 30 900 (get_field fields "durationSeconds") in
      let '(i4, audience) :=
        z_string (Some (3, None)) (Some 120) (get_field fields "audience") in
      let '(i5, cta) :=
        z_string (Some (3, None)) (Some 180) (get_field fields "callToAction") in
      match i1 ++ i2 ++ i3 ++ i4 ++ i5, topic, tone, duration, audience, cta with
      | [], Some t, Some o, Some d, Some a, Some c =>
          ParseSuccess (mkRequest t o d a c)
      | issues, _, _, _, _, _ => ParseFailure issues
      end
  | _ => ParseFailure [error_map (invalid_type "object" (parsed_type (Some json)))]
  end.

End Schema.

Definition REQUIRED_ENV_VARS : list string :=
  [ "OPENAI_API_KEY"; "GOOGLE_CLIENT_ID"; "GOOGLE_CLIENT_SECRET";
    "GOOGLE_REFRESH_TOKEN" ].

(** ** The response *)

Record PipelineResult : Type := mkResult {
  scriptDraft : string;
  enhancedScript : string;
  videoUrl : string;
  youtubeUrl : string;
}.

(** The JSON body of the response: one of the two shapes the route
    builds. *)
Inductive ResponseBody : Type :=
| Success (result : PipelineResult) (log : list StepLog)
| Failure (error_message : string) (log : list StepLog).

Record Response : Type := mkResponse {
  body : ResponseBody;
  http_status : Z;
}.

Definition body_log (b : ResponseBody) : list StepLog :=
  match b with
  | Success _ log => log
  | Failure _ log => log
  end.

Definition body_success (b : ResponseBody) : bool :=
  match b with
  | Success _ _ => true
  | Failure _ _ => false
  end.

(** ** The world outside the route *)

Record FfmpegCommand : Type := mkFfmpeg {
  ff_inputs : list (string * list string);
  ff_outputOptions : list string;
  ff_output : string;
}.

Record InsertRequest : Type := mkInsert {
  ins_clientId : option string;
  ins_clientSecret : option string;
  ins_redirectUri : string;
  ins_refreshToken : option string;
  ins_part : list string;
  ins_title : string;
  ins_description : string;
  ins_tags : list string;
  ins_privacyStatus : string;
  ins_madeForKids : bool;
  ins_media : Buffer;
}.

(** A call that leaves the route, with its arguments. *)
Inductive Call : Type :=
| CallChat (model system user : string)
| CallSpeech (model voice input : string)
| CallImage (model prompt size response_format : string)
| CallMkdtemp (prefix : string)
| CallWriteFile (path : string) (data : Buffer)
| CallFfmpeg (cmd : FfmpegCommand)
| CallReadFile (path : string)
| CallRm (path : string) (recursive force : bool)
| CallInsert (req : InsertRequest).

Record World : Type := mkWorld {
  (** [process.env] *)
  env : gmap string string;
  (** [await request.json()] *)
  request_json : Result Json;
  (** the error map of the validation library *)
  zod_error_map : ZodIssue -> string;
  (** the text of a number inside a template literal *)
  number_to_string : Q -> string;
  (** [openai.chat.completions.create], read at
      [choices[0]?.message?.content]; a response that cannot be read
      there is a thrown value *)
  chat_completions_create : string -> string -> string -> Result (option string);
  (** [openai.audio.speech.create]; the response answers
      [arrayBuffer()] *)
  audio_speech_create : string -> string -> string -> Result (Result Buffer);
  (** [openai.images.generate], read at [data?.[0]?.b64_json] *)
  images_generate : string -> string -> string -> string -> Result (option string);
  (** of two rejections inside [Promise.all], the image one comes first *)
  image_rejects_first : bool;
  (** [Buffer.from(s, "base64")] and [buffer.toString("base64")] *)
  buffer_from_base64 : string -> Buffer;
  buffer_to_base64 : Buffer -> string;
  (** [os.tmpdir()], [randomUUID()] at its n-th call as the number
      that its 32 hexadecimal digits write, the file system before the
      request and the outcomes of its operations *)
  os_tmpdir : string;
  randomUUID : nat -> N;
  initial_fs : gset string;
  fs_mkdtemp : string -> Result string;
  fs_writeFile : string -> Buffer -> Result unit;
  ffmpeg_save : FfmpegCommand -> Result unit;
  fs_readFile : string -> Result Buffer;
  fs_rm : string -> Result unit;
  (** [youtube.videos.insert], read at [data.id] *)
  youtube_videos_insert : InsertRequest -> Result (option string);
  (** the error thrown when a string with this content is built and is
      longer than a string of the runtime may be *)
  string_too_long : string -> option Exn;
  (** the same for the text that [NextResponse.json] writes for the
      body of a success, which carries the video *)
  response_too_long : ResponseBody -> option Exn;
  (** of what lies below a directory, what a removal that rejects has
      removed before it does *)
  fs_rm_removed_first : string -> string -> bool;
}.

(** ** The state of one request *)

Record RunState : Type := mkState {
  st_log : list StepLog;
  (** the log after each call of [setStepStatus], oldest first *)
  st_updates : list (list StepLog);
  (** the calls made so far, oldest first *)
  st_calls : list Call;
  (** the paths present in the file system *)
  st_fs : gset string;
  (** how often [randomUUID] was called *)
  st_uuids : nat;
}.

Definition M (A : Type) : Type := RunState -> RunState * Result A.

Definition ret {A} (a : A) : M A := fun s => (s, Ok a).
Definition throw {A} (e : Exn) : M A := fun s => (s, Throw e).
Definition bind {A B} (m : M A) (k : A -> M B) : M B :=
  fun s =>
    match m s with
    | (s', Ok a) => k a s'
    | (s', Throw e) => (s', Throw e)
    end.

Notation "x <- m ;; k" := (bind m (fun x => k))
  (at level 100, m at next level, right associativity).
Notation "m ;;; k" := (bind m (fun _ => k))
  (at level 100, right associativity).

(** [try { body } finally { fin }]: [fin] runs on both ways out of
    [body]; when [fin] throws, that is what the statement throws. *)
Definition try_finally {A} (body : M A) (fin : M unit) : M A :=
  fun s =>
    match body s with
    | (s', r) =>
        match fin s' with
        | (s'', Ok _) => (s'', r)
        | (s'', Throw e) => (s'', Throw e)
        end
    end.

(** [promise.catch(() => undefined)]. *)
Definition catch_undefined (m : M unit) : M unit :=
  fun s =>
    match m s with
    | (s', _) => (s', Ok tt)
    end.

Definition get_log : M (list StepLog) := fun s => (s, Ok (st_log s)).

Definition record_call (c : Call) (s : RunState) : RunState :=
  match s with
  | mkState log updates calls fs uuids =>
      mkState log updates (calls ++ [c]) fs uuids
  end.

Definition update_fs (change : gset string -> gset string) (s : RunState)
    : RunState :=
  match s with
  | mkState log updates calls fs uuids =>
      mkState log updates calls (change fs) uuids
  end.

(** [setStepStatus(log, id, status, detail)] on the log of the request. *)
Definition set_step (i : string) (st : StepStatus) (d : option string) : M unit :=
  fun s =>
    match s with
    | mkState log updates calls fs uuids =>
        let log' := setStepStatus log i st d in
        (mkState log' (updates ++ [log']) calls fs uuids, Ok tt)
    end.

(** An awaited call whose outcome does not touch the file system. *)
Definition call {A} (c : Call) (outcome : Result A) : M A :=
  fun s => (record_call c s, outcome).

(** ** Paths

    [path.join] and [path.normalize] of the POSIX flavour of the
    runtime, and the text of a [randomUUID()]. *)

Module Path.

Definition is_slash (c : ascii) : bool := Ascii.eqb c "/".

(** [p.split("/")]. *)
Fixpoint split (p : string) : list string :=
  match p with
  | EmptyString => [EmptyString]
  | String c rest =>
      if is_slash c
      then EmptyString :: split rest
      else
        match split rest with
        | segment :: more => String c segment :: more
        | [] => [String c EmptyString]
        end
  end.

Definition isAbsolute (p : string) : bool :=
  match p with
  | String c _ => is_slash c
  | EmptyString => false
  end.

Fixpoint ends_with_slash (p : string) : bool :=
  match p with
  | EmptyString => false
  | String c EmptyString => is_slash c
  | String _ rest => ends_with_slash rest
  end.

(** One more segment for [normalizeString]; the segments kept so far
    are held last first.  An empty segment and [.] are dropped; [..]
    takes the last segment away, unless there is none or it is [..]
    itself: then [..] is kept when the path may climb above its root
    and dropped otherwise. *)
Definition push (allowAboveRoot : bool) (kept : list string) (segment : string)
    : list string :=
  if String.eqb segment EmptyString || String.eqb segment "." then kept
  else if String.eqb segment ".." then
    match kept with
    | last :: before =>
        if String.eqb last ".."
        then (if allowAboveRoot then segment :: kept else kept)
        else before
    | [] => if allowAboveRoot then [segment] else []
    end
  else segment :: kept.

Definition normalizeString (allowAboveRoot : bool) (p : string) : list string :=
  rev (fold_left (push allowAboveRoot) (split p) []).

(** [path.normalize(p)]. *)
Definition normalize (p : string) : string :=
  match p with
  | EmptyString => "."
  | _ =>
      let absolute := isAbsolute p in
      let body := Js.join "/" (normalizeString (negb absolute) p) in
      match body with
      | EmptyString =>
          if absolute then "/" else if ends_with_slash p then "./" else "."
      | _ =>
          (if absolute then "/" else EmptyString)
          +:+ body
          +:+ (if ends_with_slash p then "/" else EmptyString)
      end
  end.

(** [path.join(a, b)]: the arguments that are not empty, joined by a
    slash and normalized. *)
Definition join (a b : string) : string :=
  match a, b with
  | EmptyString, EmptyString => "."
  | EmptyString, _ => normalize b
  | _, EmptyString => normalize a
  | _, _ => normalize (a +:+ "/" +:+ b)
  end.

(** The segments that a path comes down to. *)
Definition segments (p : string) : list string :=
  normalizeString (negb (isAbsolute p)) p.

Fixpoint begins_with (l start : list string) {struct start} : bool :=
  match start, l with
  | [], _ => true
  | x :: start', y :: l' => String.eqb x y && begins_with l' start'
  | _ :: _, [] => false
  end.

End Path.

Definition path_join (a b : string) : string := Path.join a b.

(** A path is inside a directory when it is the directory or lies
    below it: both absolute or both relative, and the segments of the
    directory open those of the path. *)
Definition inside (dir p : string) : bool :=
  Bool.eqb (Path.isAbsolute dir) (Path.isAbsolute p)
  && Path.begins_with (Path.segments p) (Path.segments dir).

(** A text without a slash, and a name that is one segment of a path:
    not empty, without a slash, and neither [.] nor [..]. *)
Fixpoint no_slash (s : string) : bool :=
  match s with
  | EmptyString => true
  | String c rest => negb (Path.is_slash c) && no_slash rest
  end.

Definition plain_name (s : string) : bool :=
  no_slash s && negb (String.eqb s EmptyString) && negb (String.eqb s ".")
  && negb (String.eqb s "..").

(** The segments that [Path.normalizeString] can hold, last first: no
    empty one, no [.], none with a slash, and [..] only where the path
    may climb above its root, with nothing but [..] before it. *)
Fixpoint kept_normal (allowAboveRoot : bool) (kept : list string) : Prop :=
  match kept with
  | [] => True
  | segment :: before =>
      no_slash segment = true /\
      segment <> EmptyString /\ segment <> "." /\
      (segment = ".." ->
       allowAboveRoot = true /\ Forall (fun s => s = "..") before) /\
      kept_normal allowAboveRoot before
  end.

(** The text of a [randomUUID()]: 32 hexadecimal digits in groups of
    8, 4, 4, 4 and 12. *)
Definition hex_digit (n : N) : ascii :=
  match N.to_nat (n mod 16) with
  | 0%nat => "0" | 1%nat => "1" | 2%nat => "2" | 3%nat => "3"
  | 4%nat => "4" | 5%nat => "5" | 6%nat => "6" | 7%nat => "7"
  | 8%nat => "8" | 9%nat => "9" | 10%nat => "a" | 11%nat => "b"
  | 12%nat => "c" | 13%nat => "d" | 14%nat => "e" | _ => "f"
  end%char.

Fixpoint hex (digits : nat) (n : N) : string :=
  match digits with
  | O => EmptyString
  | S fewer => hex fewer (n / 16) +:+ String (hex_digit n) EmptyString
  end.

Definition uuid_string (n : N) : string :=
  hex 8 (n / 2 ^ 96) +:+ "-" +:+ hex 4 (n / 2 ^ 80) +:+ "-"
  +:+ hex 4 (n / 2 ^ 64) +:+ "-" +:+ hex 4 (n / 2 ^ 48) +:+ "-" +:+ hex 12 n.

Section Effects.

Variable w : World.

Definition random_uuid : M string :=
  fun s =>
    match s with
    | mkState log updates calls fs uuids =>
        (mkState log updates calls fs (S uuids),
         Ok (uuid_string (randomUUID w uuids)))
    end.

(** [fs.mkdtemp(prefix)]: the directory it resolves to exists. *)
Definition mkdtemp (prefix : string) : M string :=
  fun s =>
    let s1 := record_call (CallMkdtemp prefix) s in
    match fs_mkdtemp w prefix with
    | Ok dir => (update_fs (union {[dir]}) s1, Ok dir)
    | Throw e => (s1, Throw e)
    end.

Definition writeFile (path : string) (data : Buffer) : M unit :=
  fun s =>
    let s1 := record_call (CallWriteFile path data) s in
    match fs_writeFile w path data with
    | Ok _ => (update_fs (union {[path]}) s1, Ok tt)
    | Throw e => (s1, Throw e)
    end.

(** The promise around the ffmpeg command: resolved on [end], rejected
    on [error]; on [end] the output file exists. *)
Definition ffmpeg_run (cmd : FfmpegCommand) : M unit :=
  fun s =>
    let s1 := record_call (CallFfmpeg cmd) s in
    match ffmpeg_save w cmd with
    | Ok _ => (update_fs (union {[ff_output cmd]}) s1, Ok tt)
    | Throw e => (s1, Throw e)
    end.

Definition readFile (path : string) : M Buffer :=
  call (CallReadFile path) (fs_readFile w path).

(** What a removal of [dir] that rejects has taken away: paths below
    [dir], not [dir] itself, which is removed last. *)
Definition removed_first (dir p : string) : bool :=
  inside dir p && negb (inside p dir) && fs_rm_removed_first w dir p.

(** [fs.rm(dir, { recursive: true, force: true })]: when it resolves,
    nothing inside [dir] is left; when it rejects, [dir] is still
    there, without what was removed before the rejection. *)
Definition rm_recursive_force (dir : string) : M unit :=
  fun s =>
    let s1 := record_call (CallRm dir true true) s in
    match fs_rm w dir with
    | Ok _ => (update_fs (filter (fun p => inside dir p = false)) s1, Ok tt)
    | Throw e =>
        (update_fs (filter (fun p => removed_first dir p = false)) s1, Throw e)
    end.

End Effects.

(** ** The functions of the route *)

Section Route.

Variable w : World.

Definition ensureEnv : list string :=
  List.filter (fun key => Js.falsy (env w !! key)) REQUIRED_ENV_VARS.

(** An awaited value that is already there: the body of the request,
    the body of the speech response. *)
Definition await {A} (r : Result A) : M A := fun s => (s, r).

(** The messages of the two chat requests. *)
Definition draft_system : string :=
  "You are a seasoned video script writer. Produce structured narration with scene suggestions and clear pacing cues.".

Definition draft_user (topic audience tone : string) (durationSeconds : Q) : string :=
  "Topic: " +:+ topic +:+ "
Target audience: " +:+ audience +:+ "
Tone: " +:+ tone +:+ "
Desired duration: " +:+ number_to_string w durationSeconds +:+ " seconds

Create a narration script with:
- Hook
- Three supporting segments (each with on-screen direction cues)
- Closing with call-to-action placeholder
- Estimated duration per segment
- Short list of suggested accompanying visuals".

Definition enhance_system : string :=
  "You elevate scripts into polished YouTube-ready narration. Improve flow, add storytelling beats, and end with the supplied call-to-action. Maintain length and respect the audience level.".

Definition enhance_user (topic audience tone callToAction draft : string) : string :=
  "Topic: " +:+ topic +:+ "
Audience: " +:+ audience +:+ "
Preferred tone: " +:+ tone +:+ "
Call to action: " +:+ callToAction +:+ "

Script draft:
" +:+ draft +:+ "

Refine the narration. Keep the structure, tighten pacing, add vivid transitions, and explicitly include the call-to-action in the closing.".

Definition generateScriptDraft (topic tone : string) (durationSeconds : Q)
    (audience : string) : M string :=
  let model := "gpt-4o-mini" in
  let user := draft_user topic audience tone durationSeconds in
  content <- call (CallChat model draft_system user)
                  (chat_completions_create w model draft_system user);;
  if Js.falsy content
  then throw (JsError "Failed to generate script draft.")
  else ret (default EmptyString content).

Definition enhanceScript (draft topic tone callToAction audience : string)
    : M string :=
  let model := "gpt-4o" in
  let user := enhance_user topic audience tone callToAction draft in
  content <- call (CallChat model enhance_system user)
                  (chat_completions_create w model enhance_system user);;
  if Js.falsy content
  then throw (JsError "Failed to enhance script.")
  else ret (default EmptyString content).

(** [await Promise.all([a, b])]: both calls are made; the pair is
    there when both resolve, and the first rejection is thrown. *)
Definition promise_all2 {A B} (c1 : Call) (r1 : Result A)
    (c2 : Call) (r2 : Result B) : M (A * B) :=
  fun s =>
    let s' := record_call c2 (record_call c1 s) in
    match r1, r2 with
    | Ok a, Ok b => (s', Ok (a, b))
    | Throw e, Ok _ => (s', Throw e)
    | Ok _, Throw e => (s', Throw e)
    | Throw e1, Throw e2 =>
        (s', Throw (if image_rejects_first w then e2 else e1))
    end.

Definition image_prompt (topic : string) : string :=
  "Create a cinematic, modern, and high-contrast wide background image that illustrates the theme: "
  +:+ topic +:+ ". Avoid text. Futurist lighting with gradients.".

Definition generateAssets (enhancedScript topic : string) : M (Buffer * Buffer) :=
  let prompt := image_prompt topic in
  responses <- promise_all2
      (CallSpeech "gpt-4o-mini-tts" "alloy" enhancedScript)
      (audio_speech_create w "gpt-4o-mini-tts" "alloy" enhancedScript)
      (CallImage "gpt-image-1" prompt "1024x1024" "b64_json")
      (images_generate w "gpt-image-1" prompt "1024x1024" "b64_json");;
  let '(speechResponse, imageBase64) := responses in
  audioBuffer <- await speechResponse;;
  if Js.falsy imageBase64
  then throw (JsError "Image generation failed.")
  else
    let imageBuffer := buffer_from_base64 w (default EmptyString imageBase64) in
    ret (audioBuffer, imageBuffer).

(** The block under [try] of [synthesizeVideo]. *)
Definition synthesizeVideo_try (audioPath imagePath videoPath : string)
    (audioBuffer imageBuffer : Buffer) : M Buffer :=
  writeFile w audioPath audioBuffer;;;
  writeFile w imagePath imageBuffer;;;
  ffmpeg_run w
    (mkFfmpeg [ (imagePath, ["-loop 1"]); (audioPath, []) ]
              [ "-c:v libx264"; "-tune stillimage"; "-c:a aac"; "-b:a 192k";
                "-pix_fmt yuv420p"; "-shortest" ]
              videoPath);;;
  videoBuffer <- readFile w videoPath;;
  ret videoBuffer.

(** The block under [finally]. *)
Definition synthesizeVideo_finally (tempDir : string) : M unit :=
  catch_undefined (rm_recursive_force w tempDir).

Definition synthesizeVideo (audioBuffer imageBuffer : Buffer) : M Buffer :=
  tempDir <- mkdtemp w (path_join (os_tmpdir w) "agentic-");;
  u1 <- random_uuid w;;
  let audioPath := path_join tempDir ("audio-" +:+ u1 +:+ ".mp3") in
  u2 <- random_uuid w;;
  let imagePath := path_join tempDir ("image-" +:+ u2 +:+ ".png") in
  u3 <- random_uuid w;;
  let videoPath := path_join tempDir ("video-" +:+ u3 +:+ ".mp4") in
  try_finally
    (synthesizeVideo_try audioPath imagePath videoPath audioBuffer imageBuffer)
    (synthesizeVideo_finally tempDir).

Definition upload_request (videoBuffer : Buffer) (title description : string)
    (tags : list string) : InsertRequest :=
  mkInsert (env w !! "GOOGLE_CLIENT_ID")
           (env w !! "GOOGLE_CLIENT_SECRET")
           (default "https://developers.google.com/oauthplayground"
                    (env w !! "GOOGLE_REDIRECT_URI"))
           (env w !! "GOOGLE_REFRESH_TOKEN")
           [ "snippet"; "status" ]
           title description tags
           (default "unlisted" (env w !! "YOUTUBE_PRIVACY_STATUS"))
           false
           videoBuffer.

Definition uploadToYouTube (videoBuffer : Buffer) (title description : string)
    (tags : list string) : M string :=
  let req := upload_request videoBuffer title description tags in
  videoId <- call (CallInsert req) (youtube_videos_insert w req);;
  if Js.falsy videoId
  then throw (JsError "Unable to retrieve YouTube video ID after upload.")
  else ret ("https://www.youtube.com/watch?v=" +:+ default EmptyString videoId).

(** [NextResponse.json(body, { status })] with the log as it is when
    the response is built. *)
Definition respond_failure (msg : string) (code : Z) : M Response :=
  log <- get_log;;
  ret (mkResponse (Failure msg log) code).

(** A string that is built: it is there, or the building throws
    because it is longer than a string may be.  The text of the video
    is the one string of the route that is as long as a file; the
    others are made of the fields of the request and of the answers of
    the collaborators, and are taken to fit. *)
Definition built (text : string) : M string :=
  match string_too_long w text with
  | Some e => throw e
  | None => ret text
  end.

(** [NextResponse.json(body)] for a success: the body carries the video
    as text, and writing it can throw for the same reason. *)
Definition respond_success (r : PipelineResult) : M Response :=
  log <- get_log;;
  match response_too_long w (Success r log) with
  | Some e => throw e
  | None => ret (mkResponse (Success r log) 200)
  end.

(** The title and the description of the upload, before they are cut. *)
Definition video_title (topic tone : string) : string :=
  topic +:+ " | " +:+ tone +:+ " explainer".

Definition video_description (enhancedScript callToAction audience : string)
    : string :=
  enhancedScript +:+ "

---
Call to action: " +:+ callToAction +:+ "
Audience: " +:+ audience +:+ "
Automated by Agentic Studio.".

(** The stages, once the request is validated.  What can throw here
    are the awaited calls, the [throw] statements of the functions
    called and, after the upload, the building of the text of the video
    and of the response that carries it.  The client is built from a
    key that the check of the environment found; counting words,
    formatting the size and cutting strings are total. *)
Definition POST_stages (data : PipelineRequest) : M Response :=
  let topic := topic data in
  let tone := tone data in
  let audience := audience data in
  let callToAction := callToAction data in
  set_step "script" working (Some "Drafting narration...");;;
  scriptDraft <- generateScriptDraft topic tone (durationSeconds data) audience;;
  let draftWordCount := Js.split_ws_length scriptDraft in
  set_step "script" done
    (Some ("Draft complete (" +:+ Js.string_of_N draftWordCount +:+ " words)."));;;
  set_step "enhance" working (Some "Polishing presentation...");;;
  enhancedScript <- enhanceScript scriptDraft topic tone callToAction audience;;
  let enhancedWordCount := Js.split_ws_length enhancedScript in
  set_step "enhance" done
    (Some ("Enhanced script ready (" +:+ Js.string_of_N enhancedWordCount
           +:+ " words)."));;;
  set_step "video" working (Some "Rendering narration and visuals...");;;
  assets <- generateAssets enhancedScript topic;;
  let '(audioBuffer, imageBuffer) := assets in
  videoBuffer <- synthesizeVideo audioBuffer imageBuffer;;
  let videoSizeMb := Js.megabytes_toFixed2 (N.of_nat (length videoBuffer)) in
  set_step "video" done (Some ("Video rendered (" +:+ videoSizeMb +:+ " MB)."));;;
  set_step "upload" working (Some "Uploading to YouTube...");;;
  let videoTitle := video_title topic tone in
  let videoDescription := video_description enhancedScript callToAction audience in
  youtubeUrl <- uploadToYouTube videoBuffer
      (Js.slice videoTitle 0 95)
      (Js.slice videoDescription 0 4800)
      [ "AI"; "Automation"; "YouTube Agent"; Js.slice topic 0 60 ];;
  set_step "upload" done (Some ("Published to " +:+ youtubeUrl +:+ "."));;;
  encoded <- built (buffer_to_base64 w videoBuffer);;
  videoDataUrl <- built ("data:video/mp4;base64," +:+ encoded);;
  respond_success (mkResult scriptDraft enhancedScript videoDataUrl youtubeUrl).

(** The block under [try] of [POST]. *)
Definition POST_try : M Response :=
  let missingEnv := ensureEnv in
  if (0 <? length missingEnv)%nat
  then respond_failure
         ("Missing required environment variables: " +:+ Js.join ", " missingEnv)
         500
  else
    json <- await (request_json w);;
    match requestSchema_safeParse (zod_error_map w) json with
    | ParseFailure issues => respond_failure (Js.join "; " issues) 400
    | ParseSuccess data => POST_stages data
    end.

(** [error instanceof Error ? error.message : ...]. *)
Definition error_detail (e : Exn) : string :=
  match e with
  | JsError message => message
  | JsThrown => "An unexpected error occurred."
  end.

(** The block under [catch] of [POST]. *)
Definition POST_catch (e : Exn) : M Response :=
  let detail := error_detail e in
  log <- get_log;;
  match find_working log with
  | Some failingStep => set_step (id failingStep) error (Some detail)
  | None => ret tt
  end;;;
  respond_failure detail 500.

Definition initial_state : RunState :=
  mkState cloneStepLog [] [] (initial_fs w) 0.

(** [try { body } catch (error) { handler }]. *)
Definition try_catch {A} (body : M A) (handler : Exn -> M A) : M A :=
  fun s =>
    match body s with
    | (s', Ok a) => (s', Ok a)
    | (s', Throw e) => handler e s'
    end.

(** One request, from [const log = cloneStepLog()] on. *)
Definition POST_run : RunState * Result Response :=
  try_catch POST_try POST_catch initial_state.

End Route.

(** ** Vocabulary of the properties *)

Definition stage_ids : list string := [ "script"; "enhance"; "video"; "upload" ].

(** The transitions a stage may take. *)
Definition legal_transition (a b : StepStatus) : bool :=
  match a, b with
  | idle, working => true
  | working, done => true
  | working, error => true
  | _, _ => false
  end.

Definition is_terminal (st : StepStatus) : bool :=
  match st with
  | done | error => true
  | _ => false
  end.

(** One stage from one log to the next: the same stage, its status
    unchanged or moved along a legal transition, and unchanged when it
    was terminal. *)
Definition stage_step (x y : StepLog) : Prop :=
  id x = id y /\
  (status x = status y \/ legal_transition (status x) (status y) = true) /\
  (is_terminal (status x) = true -> status y = status x).

Definition log_step (l1 l2 : list StepLog) : Prop := Forall2 stage_step l1 l2.

(** A relation between every element of a list and the next one. *)
Fixpoint adjacent {A} (R : A -> A -> Prop) (l : list A) : Prop :=
  match l with
  | a :: (b :: _) as rest => R a b /\ adjacent R rest
  | _ => True
  end.

Definition count_working (log : list StepLog) : nat :=
  length (List.filter (fun step => is_working (status step)) log).

(** The logs a request goes through: the fresh clone, then the log
    after every update. *)
Definition snapshots (w : World) : list (list StepLog) :=
  cloneStepLog :: st_updates (fst (POST_run w)).

(** The log of a run that failed in stage number [k] with detail [d]. *)
Definition failed_at (k : nat) (d : option string) (log : list StepLog) : Prop :=
  (forall j step, log !! j = Some step -> (j < k)%nat -> status step = done) /\
  (exists step, log !! k = Some step /\ status step = error /\ detail step = d) /\
  (forall j step, log !! j = Some step -> (k < j)%nat -> status step = idle).

Definition all_idle (log : list StepLog) : Prop :=
  Forall (fun step => status step = idle) log.

(** The calls that reach a collaborator are all the calls recorded; the
    upload is the one that carries a title and a description. *)
Definition is_insert (c : Call) : option InsertRequest :=
  match c with
  | CallInsert req => Some req
  | _ => None
  end.

(** A world that differs in the outcome of [fs.rm] only. *)
Definition with_fs_rm (w : World) (rm : string -> Result unit) : World :=
  mkWorld (env w) (request_json w) (zod_error_map w) (number_to_string w)
          (chat_completions_create w) (audio_speech_create w) (images_generate w)
          (image_rejects_first w) (buffer_from_base64 w) (buffer_to_base64 w)
          (os_tmpdir w) (randomUUID w) (initial_fs w) (fs_mkdtemp w)
          (fs_writeFile w) (ffmpeg_save w) (fs_readFile w) rm
          (youtube_videos_insert w)
          (string_too_long w) (response_too_long w) (fs_rm_removed_first w).

(** ** Worlds used as examples *)

Module Examples.

Definition full_env : gmap string string :=
  list_to_map [ ("OPENAI_API_KEY", "sk-test"); ("GOOGLE_CLIENT_ID", "client");
                ("GOOGLE_CLIENT_SECRET", "secret"); ("GOOGLE_REFRESH_TOKEN", "token") ].

Definition bridges : Json :=
  JObj [ ("topic", JStr "History of bridges"); ("tone", JStr "Educational");
         ("durationSeconds", JNum (Finite 120)); ("audience", JStr "General");
         ("callToAction", JStr "Subscribe!") ].

Definition short_topic : Json :=
  JObj [ ("topic", JStr "Tides"); ("tone", JStr "Educational");
         ("durationSeconds", JNum (Finite 120)); ("audience", JStr "General");
         ("callToAction", JStr "Subscribe!") ].

(** Every collaborator answers. *)
Definition healthy : World :=
  mkWorld full_env (Ok bridges)
    (fun _ => "Invalid input") (fun _ => "120")
    (fun _ _ _ => Ok (Some "Bridges span rivers and time."))
    (fun _ _ _ => Ok (Ok [x49; x44; x33]%byte))
    (fun _ _ _ _ => Ok (Some "iVBORw0KGgo="))
    false
    (fun _ => [x89; x50; x4e; x47; x0d; x0a; x1a; x0a]%byte) (fun _ => "AAAAGA==")
    "/tmp" (fun n => N.of_nat n) ∅
    (fun prefix => Ok (prefix +:+ "a1b2c3"))
    (fun _ _ => Ok tt) (fun _ => Ok tt) (fun _ => Ok [x00; x00; x00; x18]%byte)
    (fun _ => Ok tt)
    (fun _ => Ok (Some "dQw4w9WgXcQ"))
    (fun _ => None) (fun _ => None) (fun _ _ => false).

Definition with_request (w : World) (r : Result Json) : World :=
  mkWorld (env w) r (zod_error_map w) (number_to_string w)
          (chat_completions_create w) (audio_speech_create w) (images_generate w)
          (image_rejects_first w) (buffer_from_base64 w) (buffer_to_base64 w)
          (os_tmpdir w) (randomUUID w) (initial_fs w) (fs_mkdtemp w)
          (fs_writeFile w) (ffmpeg_save w) (fs_readFile w) (fs_rm w)
          (youtube_videos_insert w)
          (string_too_long w) (response_too_long w) (fs_rm_removed_first w).

Definition with_chat (w : World)
    (chat : string -> string -> string -> Result (option string)) : World :=
  mkWorld (env w) (request_json w) (zod_error_map w) (number_to_string w)
          chat (audio_speech_create w) (images_generate w)
          (image_rejects_first w) (buffer_from_base64 w) (buffer_to_base64 w)
          (os_tmpdir w) (randomUUID w) (initial_fs w) (fs_mkdtemp w)
          (fs_writeFile w) (ffmpeg_save w) (fs_readFile w) (fs_rm w)
          (youtube_videos_insert w)
          (string_too_long w) (response_too_long w) (fs_rm_removed_first w).

Definition with_speech (w : World)
    (speech : string -> string -> string -> Result (Result Buffer)) : World :=
  mkWorld (env w) (request_json w) (zod_error_map w) (number_to_string w)
          (chat_completions_create w) speech (images_generate w)
          (image_rejects_first w) (buffer_from_base64 w) (buffer_to_base64 w)
          (os_tmpdir w) (randomUUID w) (initial_fs w) (fs_mkdtemp w)
          (fs_writeFile w) (ffmpeg_save w) (fs_readFile w) (fs_rm w)
          (youtube_videos_insert w)
          (string_too_long w) (response_too_long w) (fs_rm_removed_first w).

Definition with_image (w : World)
    (image : string -> string -> string -> string -> Result (option string)) : World :=
  mkWorld (env w) (request_json w) (zod_error_map w) (number_to_string w)
          (chat_completions_create w) (audio_speech_create w) image
          (image_rejects_first w) (buffer_from_base64 w) (buffer_to_base64 w)
          (os_tmpdir w) (randomUUID w) (initial_fs w) (fs_mkdtemp w)
          (fs_writeFile w) (ffmpeg_save w) (fs_readFile w) (fs_rm w)
          (youtube_videos_insert w)
          (string_too_long w) (response_too_long w) (fs_rm_removed_first w).

Definition with_insert (w : World)
    (insert : InsertRequest -> Result (option string)) : World :=
  mkWorld (env w) (request_json w) (zod_error_map w) (number_to_string w)
          (chat_completions_create w) (audio_speech_create w) (images_generate w)
          (image_rejects_first w) (buffer_from_base64 w) (buffer_to_base64 w)
          (os_tmpdir w) (randomUUID w) (initial_fs w) (fs_mkdtemp w)
          (fs_writeFile w) (ffmpeg_save w) (fs_readFile w) (fs_rm w)
          insert
          (string_too_long w) (response_too_long w) (fs_rm_removed_first w).

Definition with_env (w : World) (e : gmap string string) : World :=
  mkWorld e (request_json w) (zod_error_map w) (number_to_string w)
          (chat_completions_create w) (audio_speech_create w) (images_generate w)
          (image_rejects_first w) (buffer_from_base64 w) (buffer_to_base64 w)
          (os_tmpdir w) (randomUUID w) (initial_fs w) (fs_mkdtemp w)
          (fs_writeFile w) (ffmpeg_save w) (fs_readFile w) (fs_rm w)
          (youtube_videos_insert w)
          (string_too_long w) (response_too_long w) (fs_rm_removed_first w).

(** The first chat request is answered, the second is rejected by an
    [Error] whose message is empty. *)
Definition enhance_rejects_silently : World :=
  with_chat healthy
    (fun model _ _ =>
       if String.eqb model "gpt-4o-mini"
       then Ok (Some "Bridges span rivers and time.")
       else Throw (JsError EmptyString)).

(** The speech service answers with an empty body. *)
Definition silent_speech : World :=
  with_speech healthy (fun _ _ _ => Ok (Ok [])).

(** The image service answers without a payload. *)
Definition no_image : World :=
  with_image healthy (fun _ _ _ _ => Ok None).

(** The removal of the workspace is refused. *)
Definition rm_refused : World :=
  with_fs_rm healthy (fun _ => Throw (JsError "EBUSY: resource busy or locked")).

(** The muxing fails. *)
Definition ffmpeg_fails : World :=
  mkWorld (env healthy) (request_json healthy) (zod_error_map healthy)
          (number_to_string healthy)
          (chat_completions_create healthy) (audio_speech_create healthy)
          (images_generate healthy)
          (image_rejects_first healthy) (buffer_from_base64 healthy)
          (buffer_to_base64 healthy)
          (os_tmpdir healthy) (randomUUID healthy) (initial_fs healthy)
          (fs_mkdtemp healthy)
          (fs_writeFile healthy)
          (fun _ => Throw (JsError "ffmpeg exited with code 1"))
          (fs_readFile healthy) (fs_rm healthy)
          (youtube_videos_insert healthy)
          (string_too_long healthy) (response_too_long healthy)
          (fs_rm_removed_first healthy).


Definition start (w : World) : RunState := initial_state w.

End Examples.

(** ** The order of the calls *)

Inductive CallKind : Type :=
| KChat | KSpeech | KImage | KMkdtemp | KWriteFile | KFfmpeg | KReadFile | KRm
| KInsert.

Definition call_kind (c : Call) : CallKind :=
  match c with
  | CallChat _ _ _ => KChat
  | CallSpeech _ _ _ => KSpeech
  | CallImage _ _ _ _ => KImage
  | CallMkdtemp _ => KMkdtemp
  | CallWriteFile _ _ => KWriteFile
  | CallFfmpeg _ => KFfmpeg
  | CallReadFile _ => KReadFile
  | CallRm _ _ _ => KRm
  | CallInsert _ => KInsert
  end.

Definition is_rm (k : CallKind) : bool :=
  match k with
  | KRm => true
  | _ => false
  end.

(** The calls of a request that goes all the way, the removal of the
    workspace left aside. *)
Definition pipeline_order : list CallKind :=
  [ KChat; KChat; KSpeech; KImage; KMkdtemp; KWriteFile; KWriteFile; KFfmpeg;
    KReadFile; KInsert ].

(** The three files of a workspace, from the number of identifiers
    drawn before them. *)
Definition audio_path (w : World) (drawn : nat) (dir : string) : string :=
  path_join dir ("audio-" +:+ uuid_string (randomUUID w drawn) +:+ ".mp3").

Definition image_path (w : World) (drawn : nat) (dir : string) : string :=
  path_join dir ("image-" +:+ uuid_string (randomUUID w (S drawn)) +:+ ".png").

Definition video_path (w : World) (drawn : nat) (dir : string) : string :=
  path_join dir ("video-" +:+ uuid_string (randomUUID w (S (S drawn))) +:+ ".mp4").

Definition workspace_prefix (w : World) : string :=
  path_join (os_tmpdir w) "agentic-".

(** The ffmpeg command of [synthesizeVideo] for three paths. *)
Definition mux_command (imagePath audioPath videoPath : string) : FfmpegCommand :=
  mkFfmpeg [ (imagePath, ["-loop 1"]); (audioPath, []) ]
           [ "-c:v libx264"; "-tune stillimage"; "-c:a aac"; "-b:a 192k";
             "-pix_fmt yuv420p"; "-shortest" ]
           videoPath.

Definition is_ok {A} (r : Result A) : bool :=
  match r with
  | Ok _ => true
  | Throw _ => false
  end.

(** Of a list of calls planned one after the other, each with whether
    it resolves, the calls that are made: all up to the first one that
    rejects, that one included. *)
Fixpoint until_first_failure (planned : list (Call * bool)) : list Call :=
  match planned with
  | [] => []
  | (c, resolves) :: rest =>
      c :: (if resolves then until_first_failure rest else [])
  end.

Definition is_error (st : StepStatus) : bool :=
  match st with
  | error => true
  | _ => false
  end.

Definition watch_url (videoId : string) : string :=
  "https://www.youtube.com/watch?v=" +:+ videoId.

(** What the schema asks of the five fields. *)
Definition length_between (lo hi : Z) (s : string) : Prop :=
  lo <= Z.of_nat (String.length s) <= hi.

Definition valid_fields (fields : list (string * Json)) (data : PipelineRequest)
    : Prop :=
  get_field fields "topic" = Some (JStr (topic data)) /\
  8 <= Z.of_nat (String.length (topic data)) /\
  get_field fields "tone" = Some (JStr (tone data)) /\
  length_between 3 64 (tone data) /\
  get_field fields "durationSeconds" = Some (JNum (Finite (durationSeconds data))) /\
  (30 <= durationSeconds data <= 900)%Q /\
  get_field fields "audience" = Some (JStr (audience data)) /\
  length_between 3 120 (audience data) /\
  get_field fields "callToAction" = Some (JStr (callToAction data)) /\
  length_between 3 180 (callToAction data).

(** ** The page that sends the request

    [app/page.tsx]: the state of the component, the test that enables
    the button, and the submit handler.  The state setters replace a
    value, so the state after the handler is the state with the
    assignments made in order. *)

Module Page.

(** [String.prototype.trim]: white space and line terminators are
    taken from both ends; on the code units below 256 these are the
    characters of [Js.is_space]. *)
Fixpoint trimStart (s : string) : string :=
  match s with
  | EmptyString => EmptyString
  | String c rest => if Js.is_space c then trimStart rest else s
  end.

Fixpoint trimEnd (s : string) : string :=
  match s with
  | EmptyString => EmptyString
  | String c rest =>
      match trimEnd rest with
      | EmptyString => if Js.is_space c then EmptyString else String c EmptyString
      | kept => String c kept
      end
  end.

Definition trim (s : string) : string := trimEnd (trimStart s).

Definition INITIAL_STEPS : list StepLog :=
  [ mkStepLog "script" "Generate base script" idle None;
    mkStepLog "enhance" "Enhance script" idle None;
    mkStepLog "video" "Render video" idle None;
    mkStepLog "upload" "Publish to YouTube" idle None ].

Record State : Type := mkPage {
  topic : string;
  tone : string;
  duration : string;
  audience : string;
  callToAction : string;
  steps : list StepLog;
  isRunning : bool;
  result : option PipelineResult;
  error : option string;
}.

(** The state of the first render. *)
Definition initial : State :=
  mkPage EmptyString "Educational" "120" "General" "Subscribe for more insights!"
         INITIAL_STEPS false None None.

(** [topic.trim().length >= 8 && !isRunning]. *)
Definition canSubmit (st : State) : bool :=
  (8 <=? Z.of_nat (String.length (trim (topic st)))) && negb (isRunning st).

(** What the awaited [fetch] and [response.json()] give: a rejection of
    either, or the body of the response. *)
Inductive Fetched : Type :=
| FetchRejects (e : Exn)
| JsonRejects (e : Exn)
| Payload (body : ResponseBody).

Section Handler.

(** [Number.parseInt(text, 10)], [None] for [NaN]. *)
Variable parseInt10 : string -> option JsNumber.

(** [fetch("/api/run", ...)] for a body. *)
Variable fetch_run : Json -> Fetched.

(** The value that [JSON.stringify] writes for a number: [null] for
    [NaN] and for the infinities. *)
Definition json_number (n : option JsNumber) : Json :=
  match n with
  | Some (Finite q) => JNum (Finite q)
  | _ => JNull
  end.

(** The object given to [JSON.stringify], as the value the route reads
    back from the text. *)
Definition request_body (st : State) : Json :=
  JObj [ ("topic", JStr (topic st));
         ("tone", JStr (tone st));
         ("durationSeconds", json_number (parseInt10 (duration st)));
         ("audience", JStr (audience st));
         ("callToAction", JStr (callToAction st)) ].

(** The state while the request is on its way: after
    [setIsRunning(true)], [setError(null)], [setResult(null)] and
    [setSteps(INITIAL_STEPS)]. *)
Definition pending (st : State) : State :=
  mkPage (topic st) (tone st) (duration st) (audience st) (callToAction st)
         INITIAL_STEPS true None None.

Definition setSteps (l : list StepLog) (st : State) : State :=
  mkPage (topic st) (tone st) (duration st) (audience st) (callToAction st)
         l (isRunning st) (result st) (error st).

Definition setError (e : option string) (st : State) : State :=
  mkPage (topic st) (tone st) (duration st) (audience st) (callToAction st)
         (steps st) (isRunning st) (result st) e.

Definition setResult (r : option PipelineResult) (st : State) : State :=
  mkPage (topic st) (tone st) (duration st) (audience st) (callToAction st)
         (steps st) (isRunning st) r (error st).

Definition setIsRunning (b : bool) (st : State) : State :=
  mkPage (topic st) (tone st) (duration st) (audience st) (callToAction st)
         (steps st) b (result st) (error st).

(** [err instanceof Error ? err.message : ...] of the handler. *)
Definition fetch_error (e : Exn) : string :=
  match e with
  | JsError message => message
  | JsThrown => "Unknown error while executing the pipeline."
  end.

(** [onSubmit]: the state it leaves and the bodies it sent. *)
Definition onSubmit (st : State) : State * list Json :=
  if negb (canSubmit st)
  then (st, [])
  else
    let st1 := pending st in
    let body := request_body st in
    let st2 :=
      match fetch_run body with
      | Payload (Failure message log) =>
          setError (Some message) (setSteps log st1)
      | Payload (Success r log) =>
          setResult (Some r) (setSteps log st1)
      | FetchRejects e => setError (Some (fetch_error e)) st1
      | JsonRejects e => setError (Some (fetch_error e)) st1
      end in
    (setIsRunning false st2, [body]).

End Handler.

End Page.

(** More worlds used as examples. *)
Module MoreExamples.

Definition with_mkdtemp (w : World) (mk : string -> Result string) : World :=
  mkWorld (env w) (request_json w) (zod_error_map w) (number_to_string w)
          (chat_completions_create w) (audio_speech_create w) (images_generate w)
          (image_rejects_first w) (buffer_from_base64 w) (buffer_to_base64 w)
          (os_tmpdir w) (randomUUID w) (initial_fs w) mk
          (fs_writeFile w) (ffmpeg_save w) (fs_readFile w) (fs_rm w)
          (youtube_videos_insert w)
          (string_too_long w) (response_too_long w) (fs_rm_removed_first w).

Definition with_writeFile (w : World)
    (write : string -> Buffer -> Result unit) : World :=
  mkWorld (env w) (request_json w) (zod_error_map w) (number_to_string w)
          (chat_completions_create w) (audio_speech_create w) (images_generate w)
          (image_rejects_first w) (buffer_from_base64 w) (buffer_to_base64 w)
          (os_tmpdir w) (randomUUID w) (initial_fs w) (fs_mkdtemp w)
          write (ffmpeg_save w) (fs_readFile w) (fs_rm w)
          (youtube_videos_insert w)
          (string_too_long w) (response_too_long w) (fs_rm_removed_first w).

(** The speech call is rejected. *)
Definition speech_rejects : World :=
  Examples.with_speech Examples.healthy
    (fun _ _ _ => Throw (JsError "429 Rate limit reached")).

(** No temporary directory can be made. *)
Definition no_tmpdir : World :=
  with_mkdtemp Examples.healthy
    (fun _ => Throw (JsError "ENOSPC: no space left on device")).

(** The video is published for everyone. *)
Definition public_env : gmap string string :=
  <["YOUTUBE_PRIVACY_STATUS" := "public"]> Examples.full_env.

Definition public : World := Examples.with_env Examples.healthy public_env.

(** The chat service answers with an empty text. *)
Definition empty_draft : World :=
  Examples.with_chat Examples.healthy (fun _ _ _ => Ok (Some EmptyString)).

(** A page whose form is filled in. *)
Definition filled : Page.State :=
  Page.mkPage "  History of bridges  " "Educational" "120" "General"
              "Subscribe!" Page.INITIAL_STEPS false None None.

Definition parse_120 (text : string) : option JsNumber :=
  if String.eqb text "120" then Some (Finite 120) else None.

End MoreExamples.

(** * Properties *)

(** ** Strings *)

Lemma length_take (n : nat) (s : string) :
  (String.length (Js.take n s) <= n)%nat.
Proof.
  revert s. induction n as [|n IH]; intros [|c s]; simpl; try lia.
  specialize (IH s). lia.
Qed.

Lemma length_slice_from_start (s : string) (n : Z) :
  0 <= n -> Z.of_nat (String.length (Js.slice s 0 n)) <= n.
Proof.
  intros Hn. unfold Js.slice.
  set (k := Z.to_nat _).
  pose proof (length_take k (Js.drop (Z.to_nat (Js.clamp_index (Z.of_nat (String.length s)) 0)) s)) as Hk.
  assert (Z.of_nat k <= n); [|lia].
  subst k. unfold Js.clamp_index.
  replace (0 <? 0) with false by reflexivity.
  destruct (n <? 0) eqn:E; [apply Z.ltb_lt in E; lia|].
  lia.
Qed.

(** ** The step log *)

Lemma setStepStatus_ids log i st d :
  map id (setStepStatus log i st d) = map id log.
Proof.
  induction log as [|step rest IH]; simpl; [reflexivity|].
  destruct (String.eqb (id step) i); simpl; [reflexivity|].
  now rewrite IH.
Qed.

Lemma setStepStatus_length log i st d :
  length (setStepStatus log i st d) = length log.
Proof.
  rewrite <- (length_map id), setStepStatus_ids. apply length_map.
Qed.

Lemma setStepStatus_absent log i st d :
  (forall step, In step log -> id step <> i) ->
  setStepStatus log i st d = log.
Proof.
  induction log as [|step rest IH]; simpl; intros Habs; [reflexivity|].
  destruct (String.eqb (id step) i) eqn:E.
  - apply String.eqb_eq in E. exfalso. apply (Habs step); auto.
  - f_equal. apply IH. intros x Hx. apply Habs. auto.
Qed.

(** C9.  The update of the tracker returns normally on every log and for
    every id, status and detail, leaving in the state the log computed
    by [setStepStatus]; when no stage has the id, that log is the one
    it was given, entry by entry. *)
Theorem setStepStatus_never_throws_noop_when_absent
    (log : list StepLog) (i : string) (st : StepStatus) (d : option string) :
  (forall s, st_log s = log ->
     exists s', set_step i st d s = (s', Ok tt) /\
                st_log s' = setStepStatus log i st d /\
                st_calls s' = st_calls s /\ st_fs s' = st_fs s) /\
  ((forall step, In step log -> id step <> i) ->
     setStepStatus log i st d = log).
Proof.
  split.
  - intros [l u c f n] <-. eexists. split; [reflexivity|]. simpl. auto.
  - apply setStepStatus_absent.
Qed.

Lemma setStepStatus_noop_witness :
  setStepStatus cloneStepLog "scirpt" done (Some "Draft complete (4 words).")
  = cloneStepLog.
Proof.
  apply (proj2 (setStepStatus_never_throws_noop_when_absent
                  cloneStepLog "scirpt" done (Some "Draft complete (4 words)."))).
  intros step Hin. simpl in Hin.
  destruct Hin as [<-|[<-|[<-|[<-|[]]]]]; discriminate.
Defined.

(** ** The upload *)

(** C7.  When the insert call resolves without an identifier ([null],
    [undefined] or the empty string) the upload throws its own error;
    and a URL is returned only when an identifier came back, and then it
    is the watch URL of that identifier. *)
Theorem uploadToYouTube_id_or_error
    (w : World) (videoBuffer : Buffer) (title description : string)
    (tags : list string) (s : RunState) :
  let req := upload_request w videoBuffer title description tags in
  let outcome := snd (uploadToYouTube w videoBuffer title description tags s) in
  (forall videoId,
     youtube_videos_insert w req = Ok videoId ->
     videoId = None \/ videoId = Some EmptyString ->
     outcome = Throw (JsError "Unable to retrieve YouTube video ID after upload.")) /\
  (forall url,
     outcome = Ok url ->
     exists videoId,
       youtube_videos_insert w req = Ok (Some videoId) /\
       videoId <> EmptyString /\
       url = "https://www.youtube.com/watch?v=" +:+ videoId).
Proof.
  cbv zeta. unfold uploadToYouTube, bind, call. simpl.
  destruct (youtube_videos_insert w _) as [[[|c v]|]|e]; simpl; split.
  all: try (intros ? [=] [?|?]; subst; (reflexivity || discriminate)).
  all: try (intros ? [=]).
  subst. exists (String c v). repeat split. discriminate.
Qed.

Lemma uploadToYouTube_witness :
  snd (uploadToYouTube (Examples.with_insert Examples.healthy (fun _ => Ok None))
         [] "title" "description" [] (Examples.start Examples.healthy))
  = Throw (JsError "Unable to retrieve YouTube video ID after upload.")
  /\ exists videoId,
       youtube_videos_insert Examples.healthy
         (upload_request Examples.healthy [] "title" "description" [])
       = Ok (Some videoId) /\
       videoId <> EmptyString /\
       "https://www.youtube.com/watch?v=dQw4w9WgXcQ"
       = "https://www.youtube.com/watch?v=" +:+ videoId.
Proof.
  split.
  - apply (proj1 (uploadToYouTube_id_or_error
                    (Examples.with_insert Examples.healthy (fun _ => Ok None))
                    [] "title" "description" [] (Examples.start Examples.healthy))
             None).
    + reflexivity.
    + left. reflexivity.
  - apply (proj2 (uploadToYouTube_id_or_error Examples.healthy
                    [] "title" "description" [] (Examples.start Examples.healthy))).
    reflexivity.
Defined.

(** ** Asset generation *)

(** C4, as the code has it.  A pair is returned only when the speech
    call and the reading of its body resolved and the image payload is
    a non-empty string; without a payload, or when a call rejects, the
    function throws.  The audio bytes are returned as they came. *)
Theorem generateAssets_needs_both_responses
    (w : World) (script topic : string) (s : RunState) :
  let outcome := snd (generateAssets w script topic s) in
  let speech := audio_speech_create w "gpt-4o-mini-tts" "alloy" script in
  let image :=
    images_generate w "gpt-image-1" (image_prompt topic) "1024x1024" "b64_json" in
  (forall audio img,
     outcome = Ok (audio, img) ->
     speech = Ok (Ok audio) /\
     exists b64, image = Ok (Some b64) /\ b64 <> EmptyString /\
                 img = buffer_from_base64 w b64) /\
  (forall audio payload,
     speech = Ok (Ok audio) -> image = Ok payload ->
     payload = None \/ payload = Some EmptyString ->
     outcome = Throw (JsError "Image generation failed.")) /\
  ((exists e, speech = Throw e) \/ (exists e, speech = Ok (Throw e)) \/
   (exists e, image = Throw e) ->
   exists e, outcome = Throw e).
Proof.
  cbv zeta. unfold generateAssets, bind, promise_all2, await, throw, ret.
  destruct (audio_speech_create w _ _ _) as [[audio|e1]|e1];
    destruct (images_generate w _ _ _ _) as [[[|c b]|]|e2]; simpl.
  all: split; [|split]; intros; simplify_eq; try done.
  all: try (destruct_or?; destruct_and?; repeat case_match; simplify_eq; done).
  all: try (destruct_or!; simplify_eq; done).
  all: try (eexists; reflexivity).
  - split; [reflexivity|]; exists (String c b); done.
  - repeat match goal with
           | H : _ \/ _ |- _ => destruct H
           | H : ex _ |- _ => destruct H
           end; discriminate.
Qed.

Lemma generateAssets_witness :
  snd (generateAssets Examples.no_image "Bridges span rivers and time."
         "History of bridges" (Examples.start Examples.no_image))
  = Throw (JsError "Image generation failed.").
Proof.
  apply (proj1 (proj2 (generateAssets_needs_both_responses Examples.no_image
                         "Bridges span rivers and time." "History of bridges"
                         (Examples.start Examples.no_image)))
           [x49; x44; x33]%byte None).
  - reflexivity.
  - reflexivity.
  - left. reflexivity.
Defined.

(** C4, as stated, fails: with a speech response whose body is empty
    the function returns a pair whose audio is the empty buffer. *)
Lemma generateAssets_returns_empty_audio :
  exists img,
    snd (generateAssets Examples.silent_speech "Bridges span rivers and time."
           "History of bridges" (Examples.start Examples.silent_speech))
    = Ok ([], img).
Proof. eexists. reflexivity. Qed.

(** ** Video synthesis *)

(** A handler that swallows every rejection never throws. *)
Lemma catch_undefined_ok (m : M unit) (s : RunState) :
  snd (catch_undefined m s) = Ok tt.
Proof. unfold catch_undefined. destruct (m s). reflexivity. Qed.

(** So a [finally] block of that shape leaves the outcome of the [try]
    block as it is. *)
Lemma try_finally_swallowing {A} (body : M A) (fin : M unit) (s : RunState) :
  snd (try_finally body (catch_undefined fin) s) = snd (body s).
Proof.
  unfold try_finally. destruct (body s) as [s1 r].
  pose proof (catch_undefined_ok fin s1) as Hfin.
  destruct (catch_undefined fin s1) as [s2 [u|e]]; simpl in *; congruence.
Qed.

Lemma synthesizeVideo_try_without_rm (w : World) (rm : string -> Result unit)
    (ap ip vp : string) (audio image : Buffer) (s : RunState) :
  synthesizeVideo_try (with_fs_rm w rm) ap ip vp audio image s
  = synthesizeVideo_try w ap ip vp audio image s.
Proof. reflexivity. Qed.

(** C3, as the code has it.  Once the workspace exists, on every way
    out of the [try] block the last call of the function is the
    recursive, forced removal of the workspace; when that removal
    resolves nothing inside the workspace is left; and the outcome of
    the function, value or error, is the same whatever the removal
    does. *)
Theorem synthesizeVideo_removes_workspace
    (w : World) (audio image : Buffer) (s : RunState) (dir : string) :
  fs_mkdtemp w (path_join (os_tmpdir w) "agentic-") = Ok dir ->
  let s' := fst (synthesizeVideo w audio image s) in
  let outcome := snd (synthesizeVideo w audio image s) in
  (exists calls, st_calls s' = calls ++ [CallRm dir true true]) /\
  (fs_rm w dir = Ok tt -> forall p, inside dir p = true -> p ∉ st_fs s') /\
  (forall rm, snd (synthesizeVideo (with_fs_rm w rm) audio image s) = outcome).
Proof.
  intros Hdir. cbv zeta. destruct s as [log updates calls fs uuids].
  unfold synthesizeVideo, bind, mkdtemp, random_uuid. simpl. rewrite Hdir. simpl.
  repeat split.
  - unfold try_finally, synthesizeVideo_finally, catch_undefined, rm_recursive_force.
    destruct (synthesizeVideo_try w _ _ _ audio image _) as [[l1 u1 c1 f1 n1] r1].
    destruct (fs_rm w dir); simpl; eexists; reflexivity.
  - intros Hrm p Hin.
    unfold try_finally, synthesizeVideo_finally, catch_undefined, rm_recursive_force.
    destruct (synthesizeVideo_try w _ _ _ audio image _) as [[l1 u1 c1 f1 n1] r1].
    rewrite Hrm. simpl. rewrite elem_of_filter. intros [Hout _]. congruence.
  - intros rm. unfold synthesizeVideo_finally.
    rewrite !try_finally_swallowing. reflexivity.
Qed.

Lemma synthesizeVideo_witness :
  let s' := fst (synthesizeVideo Examples.ffmpeg_fails [x49]%byte [x89]%byte
                   (Examples.start Examples.ffmpeg_fails)) in
  let outcome := snd (synthesizeVideo Examples.ffmpeg_fails [x49]%byte [x89]%byte
                        (Examples.start Examples.ffmpeg_fails)) in
  (exists calls, st_calls s' = calls ++ [CallRm "/tmp/agentic-a1b2c3" true true]) /\
  (fs_rm Examples.ffmpeg_fails "/tmp/agentic-a1b2c3" = Ok tt ->
   forall p, inside "/tmp/agentic-a1b2c3" p = true -> p ∉ st_fs s') /\
  (forall rm, snd (synthesizeVideo (with_fs_rm Examples.ffmpeg_fails rm)
                     [x49]%byte [x89]%byte (Examples.start Examples.ffmpeg_fails))
              = outcome).
Proof.
  apply (synthesizeVideo_removes_workspace Examples.ffmpeg_fails
           [x49]%byte [x89]%byte (Examples.start Examples.ffmpeg_fails)
           "/tmp/agentic-a1b2c3").
  reflexivity.
Defined.

(** C3, as stated, fails: when the removal is refused the function
    still returns the video, and the workspace is still there. *)
Lemma synthesizeVideo_workspace_left_behind :
  snd (synthesizeVideo Examples.rm_refused [x49]%byte [x89]%byte
         (Examples.start Examples.rm_refused))
  = Ok [x00; x00; x00; x18]%byte /\
  "/tmp/agentic-a1b2c3"
  ∈ st_fs (fst (synthesizeVideo Examples.rm_refused [x49]%byte [x89]%byte
                  (Examples.start Examples.rm_refused))).
Proof.
  split; [reflexivity|].
  cbv [synthesizeVideo bind mkdtemp random_uuid try_finally synthesizeVideo_try
       synthesizeVideo_finally catch_undefined rm_recursive_force writeFile
       ffmpeg_run readFile call ret record_call update_fs st_fs fst snd
       Examples.rm_refused Examples.healthy with_fs_rm fs_mkdtemp fs_writeFile
       ffmpeg_save fs_readFile fs_rm Examples.start initial_state initial_fs
       os_tmpdir ff_output].
  apply elem_of_filter. split; [vm_compute; reflexivity|].
  change (path_join "/tmp" "agentic-" +:+ "a1b2c3") with "/tmp/agentic-a1b2c3".
  set_solver.
Qed.

(** ** Running the route on an arbitrary world *)

(** The left-hand side of [H] is reduced at its head, through the
    definitions of the route and of the monad only, until it is a pair
    or a [match] on an outcome of the world. *)
Ltac route_whd_in H :=
  match type of H with
  | ?l = _ =>
      let l' := eval lazy head beta iota zeta delta
                  [POST_run POST_try POST_stages POST_catch try_catch
                   bind ret throw call await set_step get_log
                   respond_failure respond_success
                   generateScriptDraft enhanceScript generateAssets promise_all2
                   synthesizeVideo synthesizeVideo_try synthesizeVideo_finally
                   try_finally catch_undefined mkdtemp writeFile ffmpeg_run
                   readFile rm_recursive_force random_uuid uploadToYouTube built
                   find_working List.find is_working status st_log record_call
                   update_fs setStepStatus cloneStepLog STEP_TEMPLATE map
                   initial_state id String.eqb Ascii.eqb Bool.eqb andb]
                in l in
      change l with l' in H
  end.

Ltac head_is_match t :=
  lazymatch t with
  | match _ with _ => _ end => idtac
  | ?f _ => head_is_match f
  end.

(** The outcome on which a reduced term waits. *)
Ltac stuck_scrutinee t :=
  match t with
  | match ?x with _ => _ end => stuck_scrutinee x
  | ?f _ => let _ := match goal with _ => head_is_match f end in stuck_scrutinee f
  | _ => t
  end.

Ltac route_step H :=
  route_whd_in H;
  lazymatch type of H with
  | (_, _) = _ => fail
  | ?l = _ => let x := stuck_scrutinee l in destruct x eqn:?
  end.

(** All the runs of the route, one goal for each way through it. *)
Ltac route_run H := repeat route_step H.

(** C2.  Every request gets a response; its body has one of the two
    shapes, with [success] true or false; and its log, which is the log
    of the tracker, lists the four stages in the order of the template. *)
Theorem POST_responds_with_four_stages (w : World) :
  exists s response,
    POST_run w = (s, Ok response) /\
    body_log (body response) = st_log s /\
    map id (body_log (body response)) = stage_ids /\
    ((body_success (body response) = true /\ http_status response = 200) \/
     (body_success (body response) = false /\ http_status response <> 200)).
Proof.
  destruct (POST_run w) as [s r] eqn:H.
  route_run H.
  all: injection H as <- <-.
  all: eexists _, _; split; [reflexivity|].
  all: split; [reflexivity|].
  all: split; [reflexivity|].
  all: first [left; split; reflexivity | right; split; [reflexivity|discriminate]].
Qed.

(** The two scenarios of the pipeline: every collaborator answers, and
    the image service answers without a payload. *)
Example POST_healthy_run :
  exists s result log,
    POST_run Examples.healthy = (s, Ok (mkResponse (Success result log) 200)) /\
    map status log = [done; done; done; done] /\
    youtubeUrl result = "https://www.youtube.com/watch?v=dQw4w9WgXcQ".
Proof.
  eexists _, _, _. split; [vm_compute; reflexivity|].
  split; reflexivity.
Qed.

Example POST_without_image :
  exists s log,
    POST_run Examples.no_image
    = (s, Ok (mkResponse (Failure "Image generation failed." log) 500)) /\
    map status log = [done; done; error; idle].
Proof.
  eexists _, _. split; [vm_compute; reflexivity|]. reflexivity.
Qed.

(** ** Requests that never reach a stage *)

Lemma ensureEnv_missing_credential (w : World) (key : string) :
  In key REQUIRED_ENV_VARS ->
  env w !! key = None \/ env w !! key = Some EmptyString ->
  ensureEnv w <> [].
Proof.
  intros Hkey Hmissing Hnone.
  assert (In key (ensureEnv w)) as Hin; [|rewrite Hnone in Hin; destruct Hin].
  unfold ensureEnv. apply filter_In. split; [exact Hkey|].
  destruct Hmissing as [-> | ->]; reflexivity.
Qed.

(** A topic shorter than 8 characters fails the schema, whatever the
    other fields are. *)
Lemma short_topic_is_rejected (error_map : ZodIssue -> string)
    (fields : list (string * Json)) (t : string) :
  get_field fields "topic" = Some (JStr t) ->
  (String.length t < 8)%nat ->
  exists issues, requestSchema_safeParse error_map (JObj fields) = ParseFailure issues.
Proof.
  intros Htopic Hshort. unfold requestSchema_safeParse. rewrite Htopic.
  unfold z_string at 1.
  replace (Z.of_nat (String.length t) <? 8) with true
    by (symmetry; apply Z.ltb_lt; lia).
  simpl.
  repeat match goal with
         | |- context [let '(_, _) := ?p in _] => destruct p
         end.
  eexists. reflexivity.
Qed.

(** C5.  With a required credential missing, or with a body that fails
    the schema, the response is a failure built before the first update
    of the tracker: no call has left the route, the tracker was never
    updated and the log returned is the fresh clone, every stage idle. *)
Theorem POST_rejects_before_any_stage (w : World) :
  ensureEnv w <> [] \/
  (exists json issues,
     request_json w = Ok json /\
     requestSchema_safeParse (zod_error_map w) json = ParseFailure issues) ->
  exists s message code,
    POST_run w = (s, Ok (mkResponse (Failure message cloneStepLog) code)) /\
    st_calls s = [] /\ st_updates s = [] /\
    all_idle cloneStepLog /\
    Forall (fun step => status step <> working /\ status step <> error) cloneStepLog.
Proof.
  assert (all_idle cloneStepLog /\
          Forall (fun step => status step <> working /\ status step <> error)
                 cloneStepLog) as [Hidle Hnone].
  { split; repeat constructor; discriminate. }
  intros Hreject.
  unfold POST_run, try_catch, POST_try.
  destruct (0 <? length (ensureEnv w))%nat eqn:Henv.
  - eexists _, _, _. split; [reflexivity|]. auto.
  - destruct Hreject as [Hmissing | (json & issues & Hjson & Hparse)].
    + destruct (ensureEnv w); [congruence|discriminate].
    + unfold bind, await. rewrite Hjson, Hparse.
      eexists _, _, _. split; [reflexivity|]. auto.
Qed.

Lemma POST_rejects_witness :
  (exists s message code,
     POST_run (Examples.with_request Examples.healthy (Ok Examples.short_topic))
     = (s, Ok (mkResponse (Failure message cloneStepLog) code)) /\
     st_calls s = [] /\ st_updates s = [] /\
     all_idle cloneStepLog /\
     Forall (fun step => status step <> working /\ status step <> error)
            cloneStepLog) /\
  (exists s message code,
     POST_run (Examples.with_env Examples.healthy
                 (delete "GOOGLE_REFRESH_TOKEN" Examples.full_env))
     = (s, Ok (mkResponse (Failure message cloneStepLog) code)) /\
     st_calls s = [] /\ st_updates s = [] /\
     all_idle cloneStepLog /\
     Forall (fun step => status step <> working /\ status step <> error)
            cloneStepLog).
Proof.
  split; apply POST_rejects_before_any_stage.
  - right. exists Examples.short_topic.
    destruct (short_topic_is_rejected (zod_error_map Examples.healthy)
                [ ("topic", JStr "Tides"); ("tone", JStr "Educational");
                  ("durationSeconds", JNum (Finite 120));
                  ("audience", JStr "General");
                  ("callToAction", JStr "Subscribe!") ] "Tides")
      as [issues Hissues]; [reflexivity | simpl; lia |].
    exists issues. split; [reflexivity | exact Hissues].
  - left. apply (ensureEnv_missing_credential _ "GOOGLE_REFRESH_TOKEN").
    + simpl. auto.
    + left. reflexivity.
Defined.

(** ** Failures *)

Lemma POST_run_unfold (w : World) :
  POST_run w =
  match POST_try w (initial_state w) with
  | (s, Ok response) => (s, Ok response)
  | (s, Throw e) => POST_catch e s
  end.
Proof. reflexivity. Qed.

(** The log of a state, computed. *)
Ltac log_compute_in H :=
  cbv [st_log st_updates find_working List.find is_working status id label detail
       setStepStatus cloneStepLog STEP_TEMPLATE map initial_state
       String.eqb Ascii.eqb Bool.eqb andb app] in H.

Ltac log_compute :=
  cbv [st_log st_updates find_working List.find is_working status id label detail
       setStepStatus cloneStepLog STEP_TEMPLATE map initial_state
       String.eqb Ascii.eqb Bool.eqb andb app].




(** C1, as the code has it.  When the [try] block throws while the
    stage at place [k] of the log is working, the response is a failure
    whose log has every earlier stage done, stage [k] in error with the
    detail of the thrown value (the message of an [Error], a fixed text
    otherwise), and every later stage idle.  That detail is not empty
    unless the thrown value is an [Error] with an empty message. *)
Theorem POST_failure_is_attributed
    (w : World) (s : RunState) (e : Exn) (k : nat) (step : StepLog) :
  POST_try w (initial_state w) = (s, Throw e) ->
  st_log s !! k = Some step ->
  status step = working ->
  exists s' log,
    POST_run w = (s', Ok (mkResponse (Failure (error_detail e) log) 500)) /\
    st_log s' = log /\
    failed_at k (Some (error_detail e)) log /\
    (e <> JsError EmptyString -> error_detail e <> EmptyString).
Proof.
  intros Htry Hstep Hworking.
  rewrite POST_run_unfold, Htry.
  assert (e <> JsError EmptyString -> error_detail e <> EmptyString) as Hdetail.
  { destruct e as [m|]; simpl; [congruence | discriminate]. }
  route_run Htry.
  all: try discriminate Htry.
  all: injection Htry as <- <-.
  all: log_compute_in Hstep.
  all: repeat (destruct k as [|k]; simpl in Hstep; simplify_eq; simpl in Hworking;
               try discriminate Hworking).
  all: eexists _, _; split; [reflexivity|].
  all: split; [reflexivity|].
  all: split; [|try exact Hdetail].
  all: try (intros Hne; simpl; first [congruence | discriminate]).
  all: unfold failed_at; log_compute.
  all: repeat split.
  all: try (eexists; repeat split; reflexivity).
  all: intros j x Hj Hlt.
  all: repeat (destruct j as [|j]; simpl in Hj; simplify_eq; try reflexivity; try lia).
Qed.

Lemma POST_failure_witness :
  exists s' log,
    POST_run Examples.no_image
    = (s', Ok (mkResponse (Failure "Image generation failed." log) 500)) /\
    st_log s' = log /\
    failed_at 2 (Some "Image generation failed.") log /\
    (JsError "Image generation failed." <> JsError EmptyString ->
     "Image generation failed." <> EmptyString).
Proof.
  eapply (POST_failure_is_attributed Examples.no_image _
            (JsError "Image generation failed.") 2 _).
  - vm_compute. reflexivity.
  - reflexivity.
  - reflexivity.
Defined.

(** C1, as stated, fails: the enhancement call is rejected with an
    [Error] whose message is empty while its stage is working; the
    stage is marked in error, with the empty string as detail. *)
Lemma POST_error_detail_can_be_empty :
  let w := Examples.enhance_rejects_silently in
  exists s0 s step0 log step,
    POST_try w (initial_state w) = (s0, Throw (JsError EmptyString)) /\
    st_log s0 !! 1%nat = Some step0 /\ status step0 = working /\
    POST_run w = (s, Ok (mkResponse (Failure EmptyString log) 500)) /\
    log !! 1%nat = Some step /\
    status step = error /\ detail step = Some EmptyString.
Proof.
  intros w. eexists _, _, _, _, _.
  split; [vm_compute; reflexivity|].
  split; [reflexivity|]. split; [reflexivity|].
  split; [vm_compute; reflexivity|].
  split; [reflexivity|]. split; reflexivity.
Qed.

(** ** The upload request *)

Ltac calls_compute_in H :=
  cbv [st_calls record_call update_fs app fst In] in H.

(** C6.  Whatever the world answers, an insert call that leaves the
    route carries a title of at most 95 characters and a description of
    at most 4800. *)
Theorem POST_upload_title_and_description_are_cut
    (w : World) (req : InsertRequest) :
  In (CallInsert req) (st_calls (fst (POST_run w))) ->
  Z.of_nat (String.length (ins_title req)) <= 95 /\
  Z.of_nat (String.length (ins_description req)) <= 4800.
Proof.
  destruct (POST_run w) as [s r] eqn:H.
  route_run H.
  all: injection H as <- <-.
  all: intros Hin; calls_compute_in Hin.
  all: repeat (destruct Hin as [Hin|Hin]; [try discriminate Hin|]); try contradiction.
  all: injection Hin as <-.
  all: cbv [upload_request ins_title ins_description].
  all: split; apply length_slice_from_start; lia.
Qed.

Lemma POST_upload_witness :
  Z.of_nat (String.length "History of bridges | Educational explainer") <= 95 /\
  Z.of_nat (String.length
              (ins_description
                 (upload_request Examples.healthy [x00; x00; x00; x18]%byte
                    (Js.slice (video_title "History of bridges" "Educational") 0 95)
                    (Js.slice (video_description "Bridges span rivers and time."
                                 "Subscribe!" "General") 0 4800)
                    [ "AI"; "Automation"; "YouTube Agent";
                      Js.slice "History of bridges" 0 60 ]))) <= 4800.
Proof.
  apply (POST_upload_title_and_description_are_cut Examples.healthy
           (upload_request Examples.healthy [x00; x00; x00; x18]%byte
              (Js.slice (video_title "History of bridges" "Educational") 0 95)
              (Js.slice (video_description "Bridges span rivers and time."
                           "Subscribe!" "General") 0 4800)
              [ "AI"; "Automation"; "YouTube Agent";
                Js.slice "History of bridges" 0 60 ])).
  vm_compute. do 10 right. left. reflexivity.
Defined.

(** ** The history of the tracker *)

Ltac solve_stage_step :=
  split; [reflexivity|];
  split; [first [left; reflexivity | right; reflexivity]|];
  intros Hterminal; first [discriminate Hterminal | reflexivity].

(** C8.  Along the logs of a request, from the fresh clone through every
    update, each stage keeps its status or moves from idle to working or
    from working to done or error, a stage that is done or in error
    stays so, and no log has more than one stage working. *)
Theorem POST_tracker_history_is_legal (w : World) :
  adjacent log_step (snapshots w) /\
  Forall (fun log => (count_working log <= 1)%nat) (snapshots w).
Proof.
  unfold snapshots.
  destruct (POST_run w) as [s r] eqn:H.
  route_run H.
  all: injection H as <- <-.
  all: cbv [fst]; log_compute; cbv [adjacent log_step].
  all: split;
    [ repeat split; repeat (apply List.Forall2_cons; [solve_stage_step|]);
      apply List.Forall2_nil
    | repeat (apply List.Forall_cons;
              [cbv [count_working length List.filter is_working status]; lia|]);
      apply List.Forall_nil ].
Qed.

(** * Further properties of the route *)

(** ** The check of the environment *)

Lemma filter_is_sublist {A} (p : A -> bool) (l : list A) :
  sublist (List.filter p l) l.
Proof.
  induction l as [|x l IH]; simpl; [constructor|].
  destruct (p x); [apply sublist_skip | apply sublist_cons]; exact IH.
Qed.

Lemma falsy_spec (o : option string) :
  Js.falsy o = true <-> o = None \/ o = Some EmptyString.
Proof.
  destruct o as [[|c s]|]; simpl; split; intros H; auto;
    try discriminate; destruct H as [H|H]; discriminate.
Qed.

Lemma falsy_false (o : option string) :
  Js.falsy o = false ->
  o = Some (default EmptyString o) /\ default EmptyString o <> EmptyString.
Proof. destruct o as [[|c s]|]; simpl; intros H; try discriminate; split; done. Qed.

Lemma ensureEnv_empty (w : World) :
  (0 <? length (ensureEnv w))%nat = false -> ensureEnv w = [].
Proof. destruct (ensureEnv w); [reflexivity|discriminate]. Qed.

(** X1.  [ensureEnv] lists exactly the required variables that are unset or
    set to the empty string, in the order of [REQUIRED_ENV_VARS]; it is
    empty exactly when the four of them have a non-empty value. *)
Theorem ensureEnv_lists_missing_variables (w : World) :
  (forall key,
     In key (ensureEnv w) <->
     In key REQUIRED_ENV_VARS /\
     (env w !! key = None \/ env w !! key = Some EmptyString)) /\
  sublist (ensureEnv w) REQUIRED_ENV_VARS /\
  (ensureEnv w = [] <->
   forall key, In key REQUIRED_ENV_VARS ->
     exists value, env w !! key = Some value /\ value <> EmptyString).
Proof.
  assert (forall key,
            In key (ensureEnv w) <->
            In key REQUIRED_ENV_VARS /\
            (env w !! key = None \/ env w !! key = Some EmptyString)) as Hin.
  { intros key. unfold ensureEnv. rewrite filter_In, falsy_spec. reflexivity. }
  split; [exact Hin|]. split; [apply filter_is_sublist|].
  split.
  - intros Hnone key Hkey.
    destruct (env w !! key) as [[|c v]|] eqn:E.
    + assert (In key (ensureEnv w)) as H by (apply Hin; auto).
      rewrite Hnone in H. destruct H.
    + eexists. split; [reflexivity|discriminate].
    + assert (In key (ensureEnv w)) as H by (apply Hin; auto).
      rewrite Hnone in H. destruct H.
  - intros Hall. destruct (ensureEnv w) as [|key rest] eqn:E; [reflexivity|].
    assert (In key (key :: rest)) as H by (left; reflexivity).
    apply Hin in H. destruct H as [Hkey Hmiss].
    destruct (Hall key Hkey) as (value & Hv & Hne).
    destruct Hmiss as [Hm|Hm]; congruence.
Qed.

(** ** The schema of the request *)

Lemma z_string_accepts (em : ZodIssue -> string)
    (lo : Z) (custom : option string) (hi : option Z)
    (v : option Json) (o : option string) :
  z_string em (Some (lo, custom)) hi v = ([], o) <->
  exists s, o = Some s /\ v = Some (JStr s) /\
            lo <= Z.of_nat (String.length s) /\
            match hi with
            | Some m => Z.of_nat (String.length s) <= m
            | None => True
            end.
Proof.
  unfold z_string. split.
  - destruct v as [[| | |s| |]|]; try discriminate.
    destruct (Z.of_nat (String.length s) <? lo) eqn:Elo; [discriminate|].
    apply Z.ltb_ge in Elo.
    destruct hi as [m|]; simpl.
    + destruct (m <? Z.of_nat (String.length s)) eqn:Ehi; [discriminate|].
      apply Z.ltb_ge in Ehi. intros [= <-]. eauto.
    + intros [= <-]. eauto.
  - intros (s & -> & -> & Hlo & Hhi).
    replace (Z.of_nat (String.length s) <? lo) with false
      by (symmetry; apply Z.ltb_ge; lia).
    destruct hi as [m|]; simpl; [|reflexivity].
    replace (m <? Z.of_nat (String.length s)) with false
      by (symmetry; apply Z.ltb_ge; lia).
    reflexivity.
Qed.

Lemma z_number_accepts (em : ZodIssue -> string) (lo hi : Z)
    (v : option Json) (o : option Q) :
  z_number em lo hi v = ([], o) <->
  exists q, o = Some q /\ v = Some (JNum (Finite q)) /\
            (inject_Z lo <= q)%Q /\ (q <= inject_Z hi)%Q.
Proof.
  unfold z_number. split.
  - destruct v as [[| |[q| |]| | |]|]; try discriminate.
    destruct (Qle_bool (inject_Z lo) q) eqn:Elo; [|discriminate].
    destruct (Qle_bool q (inject_Z hi)) eqn:Ehi; [|discriminate].
    apply Qle_bool_iff in Elo, Ehi. intros [= <-]. eauto.
  - intros (q & -> & -> & Hlo & Hhi).
    apply Qle_bool_iff in Hlo, Hhi. rewrite Hlo, Hhi. reflexivity.
Qed.

(** A check that gives no value gives an issue. *)
Lemma z_string_no_value (em : ZodIssue -> string)
    (min : option (Z * option string)) (max : option Z) (v : option Json) :
  snd (z_string em min max v) = None -> fst (z_string em min max v) <> [].
Proof. unfold z_string. destruct v as [[| | |s| |]|]; simpl; done. Qed.

Lemma z_number_no_value (em : ZodIssue -> string) (lo hi : Z) (v : option Json) :
  snd (z_number em lo hi v) = None -> fst (z_number em lo hi v) <> [].
Proof. unfold z_number. destruct v as [[| |[q| |]| | |]|]; simpl; done. Qed.

Lemma safeParse_object (em : ZodIssue -> string) (fields : list (string * Json)) :
  requestSchema_safeParse em (JObj fields) =
  let r1 := z_string em (Some (8, Some "Topic must be at least 8 characters.")) None
              (get_field fields "topic") in
  let r2 := z_string em (Some (3, None)) (Some 64) (get_field fields "tone") in
  let r3 := z_number em 30 900 (get_field fields "durationSeconds") in
  let r4 := z_string em (Some (3, None)) (Some 120) (get_field fields "audience") in
  let r5 := z_string em (Some (3, None)) (Some 180)
              (get_field fields "callToAction") in
  match fst r1 ++ fst r2 ++ fst r3 ++ fst r4 ++ fst r5,
        snd r1, snd r2, snd r3, snd r4, snd r5 with
  | [], Some t, Some o, Some d, Some a, Some c => ParseSuccess (mkRequest t o d a c)
  | issues, _, _, _, _, _ => ParseFailure issues
  end.
Proof.
  unfold requestSchema_safeParse. cbv zeta.
  destruct (z_string em _ None _), (z_string em _ (Some 64) _),
    (z_number em _ _ _), (z_string em _ (Some 120) _), (z_string em _ (Some 180) _).
  reflexivity.
Qed.

(** X2.  The schema accepts an object exactly when its five fields have the
    types and the bounds asked for, and then the data are those
    fields; a value that is not an object is refused. *)
Theorem requestSchema_accepts_exactly_valid_fields (em : ZodIssue -> string) :
  (forall fields data,
     requestSchema_safeParse em (JObj fields) = ParseSuccess data <->
     valid_fields fields data) /\
  (forall json,
     (forall fields, json <> JObj fields) ->
     exists issue, requestSchema_safeParse em json = ParseFailure [issue]).
Proof.
  split.
  - intros fields [t o d a c]. rewrite safeParse_object. cbv zeta.
    unfold valid_fields, length_between. simpl.
    split.
    + destruct (z_string em _ None _) as [i1 o1] eqn:E1,
        (z_string em _ (Some 64) _) as [i2 o2] eqn:E2,
        (z_number em _ _ _) as [i3 o3] eqn:E3,
        (z_string em _ (Some 120) _) as [i4 o4] eqn:E4,
        (z_string em _ (Some 180) _) as [i5 o5] eqn:E5.
      simpl.
      destruct (i1 ++ i2 ++ i3 ++ i4 ++ i5) eqn:Happ; [|discriminate].
      apply app_eq_nil in Happ as [-> Happ].
      apply app_eq_nil in Happ as [-> Happ].
      apply app_eq_nil in Happ as [-> Happ].
      apply app_eq_nil in Happ as [-> ->].
      apply z_string_accepts in E1 as (s1 & -> & -> & H1 & _).
      apply z_string_accepts in E2 as (s2 & -> & -> & H2 & H2').
      apply z_number_accepts in E3 as (q3 & -> & -> & H3 & H3').
      apply z_string_accepts in E4 as (s4 & -> & -> & H4 & H4').
      apply z_string_accepts in E5 as (s5 & -> & -> & H5 & H5').
      intros [= -> -> -> -> ->]. repeat split; assumption.
    + intros (F1 & H1 & F2 & [H2 H2'] & F3 & [H3 H3'] & F4 & [H4 H4'] & F5 & [H5 H5']).
      rewrite (proj2 (z_string_accepts em 8 _ None _ (Some t))) by eauto 10.
      rewrite (proj2 (z_string_accepts em 3 _ (Some 64) _ (Some o))) by eauto 10.
      rewrite (proj2 (z_number_accepts em 30 900 _ (Some d))) by eauto 10.
      rewrite (proj2 (z_string_accepts em 3 _ (Some 120) _ (Some a))) by eauto 10.
      rewrite (proj2 (z_string_accepts em 3 _ (Some 180) _ (Some c))) by eauto 10.
      reflexivity.
  - intros json Hobj. destruct json; try (eexists; reflexivity).
    exfalso. eapply Hobj. reflexivity.
Qed.

(** X3.  A refusal always names at least one issue. *)
Theorem requestSchema_refusal_has_an_issue
    (em : ZodIssue -> string) (json : Json) (issues : list string) :
  requestSchema_safeParse em json = ParseFailure issues -> issues <> [].
Proof.
  destruct json; try (intros [= <-]; discriminate).
  rewrite safeParse_object. cbv zeta.
  pose proof (z_string_no_value em (Some (8, Some "Topic must be at least 8 characters."))
                None (get_field fields "topic")) as N1.
  pose proof (z_string_no_value em (Some (3, None)) (Some 64)
                (get_field fields "tone")) as N2.
  pose proof (z_number_no_value em 30 900 (get_field fields "durationSeconds")) as N3.
  pose proof (z_string_no_value em (Some (3, None)) (Some 120)
                (get_field fields "audience")) as N4.
  pose proof (z_string_no_value em (Some (3, None)) (Some 180)
                (get_field fields "callToAction")) as N5.
  destruct (z_string em _ None _) as [i1 o1],
    (z_string em _ (Some 64) _) as [i2 o2],
    (z_number em _ _ _) as [i3 o3],
    (z_string em _ (Some 120) _) as [i4 o4],
    (z_string em _ (Some 180) _) as [i5 o5].
  simpl in *.
  destruct (i1 ++ i2 ++ i3 ++ i4 ++ i5) eqn:Happ; [|intros [= <-]; discriminate].
  apply app_eq_nil in Happ as [-> Happ].
  apply app_eq_nil in Happ as [-> Happ].
  apply app_eq_nil in Happ as [-> Happ].
  apply app_eq_nil in Happ as [-> ->].
  destruct o1; [|exfalso; apply N1; reflexivity].
  destruct o2; [|exfalso; apply N2; reflexivity].
  destruct o3; [|exfalso; apply N3; reflexivity].
  destruct o4; [|exfalso; apply N4; reflexivity].
  destruct o5; [|exfalso; apply N5; reflexivity].
  discriminate.
Qed.

Lemma requestSchema_refusal_witness :
  [ "Topic must be at least 8 characters." ] <> [].
Proof.
  apply (requestSchema_refusal_has_an_issue (fun _ => "Invalid input")
           Examples.short_topic).
  reflexivity.
Defined.

Lemma requestSchema_accepts_witness :
  valid_fields
    [ ("topic", JStr "History of bridges"); ("tone", JStr "Educational");
      ("durationSeconds", JNum (Finite 120)); ("audience", JStr "General");
      ("callToAction", JStr "Subscribe!") ]
    (mkRequest "History of bridges" "Educational" 120 "General" "Subscribe!") /\
  exists issue,
    requestSchema_safeParse (fun _ => "Invalid input") (JStr "History of bridges")
    = ParseFailure [issue].
Proof.
  split.
  - apply (proj1 (requestSchema_accepts_exactly_valid_fields (fun _ => "Invalid input"))).
    reflexivity.
  - apply (proj2 (requestSchema_accepts_exactly_valid_fields (fun _ => "Invalid input"))).
    intros fields. discriminate.
Defined.

(** X4.  The schema reads the five fields and nothing else: two objects that
    agree on them get the same answer, whatever other keys they have. *)
Theorem requestSchema_ignores_other_keys
    (em : ZodIssue -> string) (f1 f2 : list (string * Json)) :
  (forall key,
     In key [ "topic"; "tone"; "durationSeconds"; "audience"; "callToAction" ] ->
     get_field f1 key = get_field f2 key) ->
  requestSchema_safeParse em (JObj f1) = requestSchema_safeParse em (JObj f2).
Proof.
  intros Hsame. rewrite !safeParse_object.
  rewrite (Hsame "topic"), (Hsame "tone"), (Hsame "durationSeconds"),
    (Hsame "audience"), (Hsame "callToAction") by (simpl; auto 10).
  reflexivity.
Qed.

Lemma requestSchema_other_keys_witness :
  requestSchema_safeParse (fun _ => "Invalid input")
    (JObj [ ("voice", JStr "alloy"); ("topic", JStr "History of bridges");
            ("tone", JStr "Educational"); ("durationSeconds", JNum (Finite 120));
            ("audience", JStr "General"); ("callToAction", JStr "Subscribe!") ])
  = requestSchema_safeParse (fun _ => "Invalid input") Examples.bridges.
Proof.
  apply requestSchema_ignores_other_keys.
  intros key Hkey. simpl in Hkey.
  destruct Hkey as [<-|[<-|[<-|[<-|[<-|[]]]]]]; reflexivity.
Defined.

(** ** Cutting strings *)

Lemma js_take_all (k : nat) (s : string) :
  (String.length s <= k)%nat -> Js.take k s = s.
Proof.
  revert s. induction k as [|k IH]; intros [|c s]; simpl; intros H;
    try reflexivity; try lia.
  rewrite IH by lia. reflexivity.
Qed.

Lemma slice_from_start (s : string) (n : Z) :
  0 <= n ->
  Js.slice s 0 n = Js.take (Z.to_nat (Z.min n (Z.of_nat (String.length s)))) s.
Proof.
  intros Hn. unfold Js.slice, Js.clamp_index.
  replace (0 <? 0) with false by reflexivity.
  replace (n <? 0) with false by (symmetry; apply Z.ltb_ge; lia).
  replace (Z.min 0 (Z.of_nat (String.length s))) with 0 by lia.
  simpl Js.drop. f_equal. lia.
Qed.

(** ** Updates of the step log *)

(** X5.  The update changes the first entry with the id, keeps its label,
    and leaves every other entry, a later one with the same id too. *)
Theorem setStepStatus_changes_first_match
    (pre post : list StepLog) (step : StepLog) (i : string) (st : StepStatus)
    (d : option string) :
  Forall (fun x => id x <> i) pre ->
  id step = i ->
  setStepStatus (pre ++ step :: post) i st d
  = pre ++ mkStepLog i (label step) st d :: post.
Proof.
  intros Hpre <-. induction Hpre as [|x pre Hx Hpre IH]; simpl.
  - rewrite String.eqb_refl. reflexivity.
  - apply String.eqb_neq in Hx. rewrite Hx. f_equal. exact IH.
Qed.

Lemma setStepStatus_first_match_witness :
  setStepStatus
    ([ mkStepLog "script" "Generate base script" done None ]
     ++ mkStepLog "video" "Render video" idle None
     :: [ mkStepLog "video" "Render video again" idle None ])
    "video" working (Some "Rendering narration and visuals...")
  = [ mkStepLog "script" "Generate base script" done None ]
    ++ mkStepLog "video" "Render video" working
         (Some "Rendering narration and visuals...")
    :: [ mkStepLog "video" "Render video again" idle None ].
Proof.
  apply setStepStatus_changes_first_match.
  - repeat constructor. discriminate.
  - reflexivity.
Defined.

(** X6.  Of two updates of the same stage the later one stands. *)
Theorem setStepStatus_last_update_stands
    (log : list StepLog) (i : string) (st1 st2 : StepStatus)
    (d1 d2 : option string) :
  setStepStatus (setStepStatus log i st1 d1) i st2 d2 = setStepStatus log i st2 d2.
Proof.
  induction log as [|step rest IH]; simpl; [reflexivity|].
  destruct (String.eqb (id step) i) eqn:E; simpl; rewrite E; [reflexivity|].
  f_equal. exact IH.
Qed.

(** X7.  Updates of two different stages can be made in either order. *)
Theorem setStepStatus_of_different_stages_commute
    (log : list StepLog) (i j : string) (st1 st2 : StepStatus)
    (d1 d2 : option string) :
  i <> j ->
  setStepStatus (setStepStatus log i st1 d1) j st2 d2
  = setStepStatus (setStepStatus log j st2 d2) i st1 d1.
Proof.
  intros Hij. induction log as [|step rest IH]; simpl; [reflexivity|].
  destruct (String.eqb (id step) i) eqn:Ei, (String.eqb (id step) j) eqn:Ej;
    simpl; rewrite ?Ei, ?Ej; try reflexivity.
  - apply String.eqb_eq in Ei, Ej. congruence.
  - f_equal. exact IH.
Qed.

Lemma setStepStatus_commute_witness :
  setStepStatus (setStepStatus cloneStepLog "script" done None) "enhance" working None
  = setStepStatus (setStepStatus cloneStepLog "enhance" working None) "script" done None.
Proof. apply setStepStatus_of_different_stages_commute. discriminate. Defined.

(** ** The two chat requests *)

(** X8.  [generateScriptDraft] makes one chat call and touches nothing else;
    it returns the text of the answer when there is one, throws its own
    error when the answer has no text or an empty one, and lets a
    rejection of the call through. *)
Theorem generateScriptDraft_returns_text_or_throws
    (w : World) (topic tone : string) (duration : Q) (audience : string)
    (s : RunState) :
  let user := draft_user w topic audience tone duration in
  let answer := chat_completions_create w "gpt-4o-mini" draft_system user in
  let outcome := snd (generateScriptDraft w topic tone duration audience s) in
  fst (generateScriptDraft w topic tone duration audience s)
  = record_call (CallChat "gpt-4o-mini" draft_system user) s /\
  (forall text, outcome = Ok text <-> answer = Ok (Some text) /\ text <> EmptyString) /\
  (answer = Ok None \/ answer = Ok (Some EmptyString) ->
   outcome = Throw (JsError "Failed to generate script draft.")) /\
  (forall e, answer = Throw e -> outcome = Throw e).
Proof.
  cbv zeta. unfold generateScriptDraft, bind, call, throw, ret.
  destruct (chat_completions_create w _ _ _) as [[[|c t]|]|e]; simpl.
  all: split; [reflexivity|].
  all: split; [intros text; split; [intros [= <-] | intros [[= <-] Hne]]; done|].
  all: split; [intros [[=]|[=]]; reflexivity | intros e' [= <-]; reflexivity].
Qed.

Lemma generateScriptDraft_witness :
  snd (generateScriptDraft MoreExamples.empty_draft "History of bridges"
         "Educational" 120 "General" (Examples.start MoreExamples.empty_draft))
  = Throw (JsError "Failed to generate script draft.").
Proof.
  apply (proj1 (proj2 (proj2 (generateScriptDraft_returns_text_or_throws
           MoreExamples.empty_draft "History of bridges" "Educational" 120
           "General" (Examples.start MoreExamples.empty_draft))))).
  right. reflexivity.
Defined.

(** X9.  [enhanceScript] does the same with the second model, and the draft
    it was given is part of what it sends. *)
Theorem enhanceScript_returns_text_or_throws
    (w : World) (draft topic tone callToAction audience : string) (s : RunState) :
  let user := enhance_user topic audience tone callToAction draft in
  let answer := chat_completions_create w "gpt-4o" enhance_system user in
  let outcome := snd (enhanceScript w draft topic tone callToAction audience s) in
  fst (enhanceScript w draft topic tone callToAction audience s)
  = record_call (CallChat "gpt-4o" enhance_system user) s /\
  (forall text, outcome = Ok text <-> answer = Ok (Some text) /\ text <> EmptyString) /\
  (answer = Ok None \/ answer = Ok (Some EmptyString) ->
   outcome = Throw (JsError "Failed to enhance script.")) /\
  (forall e, answer = Throw e -> outcome = Throw e).
Proof.
  cbv zeta. unfold enhanceScript, bind, call, throw, ret.
  destruct (chat_completions_create w _ _ _) as [[[|c t]|]|e]; simpl.
  all: split; [reflexivity|].
  all: split; [intros text; split; [intros [= <-] | intros [[= <-] Hne]]; done|].
  all: split; [intros [[=]|[=]]; reflexivity | intros e' [= <-]; reflexivity].
Qed.

Lemma enhanceScript_witness :
  snd (enhanceScript MoreExamples.empty_draft "Bridges span rivers and time."
         "History of bridges" "Educational" "Subscribe!" "General"
         (Examples.start MoreExamples.empty_draft))
  = Throw (JsError "Failed to enhance script.").
Proof.
  apply (proj1 (proj2 (proj2 (enhanceScript_returns_text_or_throws
           MoreExamples.empty_draft "Bridges span rivers and time."
           "History of bridges" "Educational" "Subscribe!" "General"
           (Examples.start MoreExamples.empty_draft))))).
  right. reflexivity.
Defined.

(** ** The two asset requests *)

(** X10.  [generateAssets] makes the speech call and the image call, in that
    order, whatever they answer, and nothing else: no file is touched.
    A rejected speech call surfaces even when an image came back; of two
    rejections the earlier one is thrown; and a speech body that cannot
    be read is reported before the image payload is looked at. *)
Theorem generateAssets_makes_both_calls
    (w : World) (script topic : string) (s : RunState) :
  let speech := audio_speech_create w "gpt-4o-mini-tts" "alloy" script in
  let image :=
    images_generate w "gpt-image-1" (image_prompt topic) "1024x1024" "b64_json" in
  let outcome := snd (generateAssets w script topic s) in
  fst (generateAssets w script topic s)
  = record_call (CallImage "gpt-image-1" (image_prompt topic) "1024x1024" "b64_json")
      (record_call (CallSpeech "gpt-4o-mini-tts" "alloy" script) s) /\
  (forall e payload, speech = Throw e -> image = Ok payload -> outcome = Throw e) /\
  (forall e1 e2, speech = Throw e1 -> image = Throw e2 ->
     outcome = Throw (if image_rejects_first w then e2 else e1)) /\
  (forall e payload, speech = Ok (Throw e) -> image = Ok payload -> outcome = Throw e).
Proof.
  cbv zeta. unfold generateAssets, bind, promise_all2, await, throw, ret.
  destruct (audio_speech_create w _ _ _) as [[audio|e1]|e1];
    destruct (images_generate w _ _ _ _) as [[[|c b]|]|e2]; simpl.
  all: split; [reflexivity|].
  all: split; [intros ? ? [=] [=]; subst; reflexivity|].
  all: split; [intros ? ? [=] [=]; subst; reflexivity|].
  all: intros ? ? [=] [=]; subst; reflexivity.
Qed.

Lemma generateAssets_calls_witness :
  snd (generateAssets MoreExamples.speech_rejects "Bridges span rivers and time."
         "History of bridges" (Examples.start MoreExamples.speech_rejects))
  = Throw (JsError "429 Rate limit reached").
Proof.
  apply (proj1 (proj2 (generateAssets_makes_both_calls MoreExamples.speech_rejects
           "Bridges span rivers and time." "History of bridges"
           (Examples.start MoreExamples.speech_rejects)))
           (JsError "429 Rate limit reached") (Some "iVBORw0KGgo=")).
  - reflexivity.
  - reflexivity.
Defined.

(** ** The workspace of the video *)

Lemma append_empty_r (s : string) : s +:+ EmptyString = s.
Proof.
  induction s as [|c s IH]; [reflexivity|].
  change (String c (s +:+ EmptyString) = String c s). now rewrite IH.
Qed.

Lemma split_not_empty (p : string) : Path.split p <> [].
Proof.
  induction p as [|c p IH]; simpl; [discriminate|].
  destruct (Path.is_slash c); [discriminate|].
  destruct (Path.split p); discriminate.
Qed.

(** The segments of [a/b] are those of [a], then those of [b]. *)
Lemma split_append (a b : string) :
  Path.split (a +:+ "/" +:+ b) = Path.split a ++ Path.split b.
Proof.
  induction a as [|c a IH]; [reflexivity|].
  change (Path.split (String c (a +:+ "/" +:+ b))
          = Path.split (String c a) ++ Path.split b).
  simpl. rewrite IH. destruct (Path.is_slash c); [reflexivity|].
  pose proof (split_not_empty a) as Hne.
  destruct (Path.split a); [congruence | reflexivity].
Qed.

Lemma split_no_slash (name : string) :
  no_slash name = true -> Path.split name = [name].
Proof.
  induction name as [|c name IH]; [reflexivity|].
  simpl. intros [Hc Hrest]%andb_prop.
  destruct (Path.is_slash c); [discriminate|]. now rewrite (IH Hrest).
Qed.

Lemma split_segments (p : string) :
  Forall (fun s => no_slash s = true) (Path.split p).
Proof.
  induction p as [|c p IH]; simpl; [repeat constructor|].
  destruct (Path.is_slash c) eqn:Hc; [constructor; [reflexivity | exact IH]|].
  destruct (Path.split p) as [|s l]; [repeat constructor; simpl; now rewrite Hc|].
  inversion IH; subst. constructor; [simpl; rewrite Hc; assumption | assumption].
Qed.

Lemma split_join (l : list string) :
  l <> [] -> Forall (fun s => no_slash s = true) l ->
  Path.split (Js.join "/" l) = l.
Proof.
  induction l as [|x l IH]; [congruence|]. intros _ Hall.
  inversion Hall as [|? ? Hx Hl]; subst.
  destruct l as [|y l]; [exact (split_no_slash x Hx)|].
  change (Js.join "/" (x :: y :: l)) with (x +:+ "/" +:+ Js.join "/" (y :: l)).
  rewrite split_append, (split_no_slash x Hx), IH by (congruence || assumption).
  reflexivity.
Qed.

Lemma push_keeps_normal (above : bool) (kept : list string) (segment : string) :
  no_slash segment = true -> kept_normal above kept ->
  kept_normal above (Path.push above kept segment).
Proof.
  intros Hseg Hkept. unfold Path.push.
  destruct (String.eqb segment EmptyString) eqn:He; [exact Hkept|].
  destruct (String.eqb segment ".") eqn:Hd; [exact Hkept|]. simpl.
  apply String.eqb_neq in He, Hd.
  destruct (String.eqb segment "..") eqn:Hdd.
  - apply String.eqb_eq in Hdd. subst segment.
    destruct kept as [|last before].
    + destruct above; simpl; [|exact I].
      repeat split; try discriminate; auto.
    + destruct Hkept as (Hs & Hne & Hnd & Hup & Hbefore).
      destruct (String.eqb last "..") eqn:Hlast; [|exact Hbefore].
      apply String.eqb_eq in Hlast. subst last.
      destruct (Hup eq_refl) as [-> Hall].
      simpl. repeat split; try assumption; try discriminate.
      constructor; [reflexivity | exact Hall].
  - apply String.eqb_neq in Hdd. simpl. repeat split; try assumption.
    all: congruence.
Qed.

Lemma fold_push_keeps_normal (above : bool) (l kept : list string) :
  Forall (fun s => no_slash s = true) l -> kept_normal above kept ->
  kept_normal above (fold_left (Path.push above) l kept).
Proof.
  revert kept. induction l as [|x l IH]; intros kept Hall Hkept; [exact Hkept|].
  inversion Hall; subst. simpl. apply IH; [assumption|].
  now apply push_keeps_normal.
Qed.

(** Normalizing what was normalized changes nothing. *)
Lemma fold_push_normal (above : bool) (kept : list string) :
  kept_normal above kept -> fold_left (Path.push above) (rev kept) [] = kept.
Proof.
  induction kept as [|segment before IH]; [reflexivity|].
  intros (Hs & Hne & Hnd & Hup & Hbefore).
  simpl. rewrite fold_left_app, (IH Hbefore). simpl. unfold Path.push.
  apply String.eqb_neq in Hne, Hnd. rewrite Hne, Hnd. simpl.
  destruct (String.eqb segment "..") eqn:Hdd; [|reflexivity].
  apply String.eqb_eq in Hdd. destruct (Hup Hdd) as [-> Hall].
  destruct before as [|last before]; [now subst|].
  inversion Hall; subst. reflexivity.
Qed.

Lemma no_slash_not_absolute (s : string) :
  no_slash s = true -> Path.isAbsolute s = false.
Proof.
  destruct s as [|c s]; [reflexivity|]. simpl.
  now destruct (Path.is_slash c).
Qed.

Lemma append_not_absolute (a b : string) :
  a <> EmptyString -> Path.isAbsolute (a +:+ b) = Path.isAbsolute a.
Proof. destruct a; [congruence | reflexivity]. Qed.

Lemma join_segments_not_empty (x : string) (l : list string) :
  x <> EmptyString -> Js.join "/" (x :: l) <> EmptyString.
Proof.
  destruct x as [|c x]; [congruence|]. intros _.
  destruct l; [discriminate|].
  change (String c (x +:+ "/" +:+ Js.join "/" (s :: l)) <> EmptyString).
  discriminate.
Qed.

Lemma join_segments_not_absolute (x : string) (l : list string) :
  x <> EmptyString -> no_slash x = true ->
  Path.isAbsolute (Js.join "/" (x :: l)) = false.
Proof.
  intros Hne Hx. destruct l; [now apply no_slash_not_absolute|].
  change (Js.join "/" (x :: s :: l)) with (x +:+ "/" +:+ Js.join "/" (s :: l)).
  rewrite append_not_absolute by assumption. now apply no_slash_not_absolute.
Qed.

Lemma ends_with_slash_append (a b : string) :
  b <> EmptyString -> Path.ends_with_slash (a +:+ b) = Path.ends_with_slash b.
Proof.
  intros Hb. induction a as [|c a IH]; [reflexivity|].
  change (Path.ends_with_slash (String c (a +:+ b)) = Path.ends_with_slash b).
  simpl. destruct (a +:+ b) eqn:Hab; [|exact IH].
  destruct a; [change (b = EmptyString) in Hab; congruence | discriminate].
Qed.

Lemma no_slash_no_trailing_slash (s : string) :
  no_slash s = true -> Path.ends_with_slash s = false.
Proof.
  induction s as [|c s IH]; [reflexivity|]. simpl.
  intros [Hc Hs]%andb_prop. destruct s; [now destruct (Path.is_slash c)|].
  exact (IH Hs).
Qed.

Lemma begins_with_itself (l more : list string) :
  Path.begins_with (l ++ more) l = true.
Proof.
  induction l as [|x l IH]; [reflexivity|].
  simpl. now rewrite String.eqb_refl.
Qed.

Lemma plain_name_spec (name : string) :
  plain_name name = true ->
  no_slash name = true /\ name <> EmptyString /\ name <> "." /\ name <> "..".
Proof.
  unfold plain_name. intros [[[H1 H2]%andb_prop H3]%andb_prop H4]%andb_prop.
  apply negb_true_iff, String.eqb_neq in H2, H3, H4. auto.
Qed.

(** The segments of a normalized path are the ones it was made of. *)
Lemma segments_of_normal (absolute : bool) (kept : list string) :
  kept <> [] -> kept_normal (negb absolute) kept ->
  let p := (if absolute then "/" else EmptyString) +:+ Js.join "/" (rev kept) in
  Path.isAbsolute p = absolute /\ Path.segments p = rev kept.
Proof.
  intros Hne Hkept p.
  assert (Forall (fun s => no_slash s = true) (rev kept)) as Hall.
  { apply List.Forall_rev. clear Hne. induction kept as [|x l IH]; [constructor|].
    destruct Hkept as (Hx & _ & _ & _ & Hl). constructor; auto. }
  assert (rev kept <> []) as Hrev.
  { intros Hnil. apply (f_equal (@rev string)) in Hnil.
    rewrite rev_involutive in Hnil. exact (Hne Hnil). }
  assert (Path.isAbsolute (Js.join "/" (rev kept)) = false) as Hrel.
  { destruct (rev kept) as [|x l] eqn:Hl; [congruence|].
    assert (In x (rev kept)) as Hin by (rewrite Hl; now left).
    apply in_rev in Hin. inversion Hall; subst.
    apply join_segments_not_absolute; [|assumption].
    clear -Hin Hkept. induction kept as [|y k IH]; [destruct Hin|].
    destruct Hkept as (_ & Hy & _ & _ & Hk).
    destruct Hin as [->|Hin]; [exact Hy | exact (IH Hk Hin)]. }
  assert (Path.isAbsolute p = absolute) as Habs.
  { subst p. destruct absolute; [reflexivity | exact Hrel]. }
  split; [exact Habs|].
  unfold Path.segments, Path.normalizeString. rewrite Habs. f_equal.
  subst p. destruct absolute.
  - change (("/" +:+ Js.join "/" (rev kept)))
      with (EmptyString +:+ "/" +:+ Js.join "/" (rev kept)).
    rewrite split_append, split_join by assumption.
    simpl. now apply fold_push_normal.
  - change (EmptyString +:+ Js.join "/" (rev kept)) with (Js.join "/" (rev kept)).
    rewrite split_join by assumption. now apply fold_push_normal.
Qed.

(** [path.join(dir, name)] for a plain name: the segments of [dir], then
    the name. *)
Lemma segments_path_join (dir name : string) :
  plain_name name = true ->
  Path.isAbsolute (path_join dir name) = Path.isAbsolute dir /\
  Path.segments (path_join dir name) = Path.segments dir ++ [name].
Proof.
  intros (Hs & Hne & Hnd & Hndd)%plain_name_spec.
  destruct name as [|c name]; [congruence|].
  destruct dir as [|d dir].
  - assert (Path.normalizeString true (String c name) = [String c name]) as Hone.
    { unfold Path.normalizeString. rewrite (split_no_slash _ Hs).
      unfold fold_left, Path.push. apply String.eqb_neq in Hne, Hnd, Hndd.
      now rewrite Hne, Hnd, Hndd. }
    assert (path_join EmptyString (String c name) = String c name) as ->.
    { unfold path_join, Path.join, Path.normalize.
      rewrite (no_slash_not_absolute _ Hs), (no_slash_no_trailing_slash _ Hs).
      simpl negb. rewrite Hone. unfold Js.join.
      change (EmptyString +:+ String c name +:+ EmptyString)
        with (String c name +:+ EmptyString).
      apply append_empty_r. }
    split; [exact (no_slash_not_absolute _ Hs)|].
    unfold Path.segments. rewrite (no_slash_not_absolute _ Hs). exact Hone.
  - set (absolute := Path.isAbsolute (String d dir)).
    set (kept := fold_left (Path.push (negb absolute)) (Path.split (String d dir)) []).
    assert (kept_normal (negb absolute) (String c name :: kept)) as Hkept.
    { simpl. repeat split; try assumption; try congruence.
      apply fold_push_keeps_normal; [apply split_segments | exact I]. }
    assert (path_join (String d dir) (String c name)
            = (if absolute then "/" else EmptyString)
              +:+ Js.join "/" (rev (String c name :: kept))) as ->.
    { unfold path_join, Path.join.
      change (String d dir +:+ "/" +:+ String c name)
        with (String d (dir +:+ "/" +:+ String c name)).
      unfold Path.normalize.
      change (String d (dir +:+ "/" +:+ String c name))
        with (String d dir +:+ "/" +:+ String c name).
      rewrite append_not_absolute by discriminate. fold absolute.
      unfold Path.normalizeString.
      rewrite split_append, (split_no_slash _ Hs), fold_left_app. fold kept.
      assert (Path.push (negb absolute) kept (String c name) = String c name :: kept)
        as Hpush.
      { unfold Path.push. apply String.eqb_neq in Hne, Hnd, Hndd.
        now rewrite Hne, Hnd, Hndd. }
      simpl fold_left. rewrite Hpush.
      rewrite ends_with_slash_append by discriminate.
      rewrite ends_with_slash_append by discriminate.
      rewrite (no_slash_no_trailing_slash _ Hs), append_empty_r.
      destruct (Js.join "/" (rev (String c name :: kept))) eqn:Hbody; [|reflexivity].
      exfalso. simpl rev in Hbody.
      destruct (rev kept) as [|x l] eqn:Hl.
      - discriminate Hbody.
      - revert Hbody. apply join_segments_not_empty.
        assert (In x kept) as Hin by (apply in_rev; rewrite Hl; now left).
        destruct Hkept as (_ & _ & _ & _ & Hk). clear -Hin Hk.
        induction kept as [|y k IH]; [destruct Hin|].
        destruct Hk as (_ & Hy & _ & _ & Hk).
        destruct Hin as [->|Hin]; [exact Hy | exact (IH Hk Hin)]. }
    destruct (segments_of_normal absolute (String c name :: kept)) as [Habs Hsegs];
      [discriminate | exact Hkept |].
    split; [exact Habs|]. rewrite Hsegs. reflexivity.
Qed.

(** The files of the workspace lie inside it. *)
Lemma inside_path_join (dir name : string) :
  plain_name name = true -> inside dir (path_join dir name) = true.
Proof.
  intros Hname. destruct (segments_path_join dir name Hname) as [Habs Hsegs].
  unfold inside. rewrite Habs, Hsegs, begins_with_itself.
  now destruct (Path.isAbsolute dir).
Qed.

Lemma inside_itself (dir : string) : inside dir dir = true.
Proof.
  unfold inside.
  rewrite <- (app_nil_r (Path.segments dir)) at 1. rewrite begins_with_itself.
  now destruct (Path.isAbsolute dir).
Qed.

Lemma no_slash_append (a b : string) :
  no_slash (a +:+ b) = no_slash a && no_slash b.
Proof.
  induction a as [|c a IH]; [reflexivity|].
  change (no_slash (String c (a +:+ b)) = no_slash (String c a) && no_slash b).
  simpl. rewrite IH. now rewrite andb_assoc.
Qed.

Lemma no_slash_hex (digits : nat) (n : N) : no_slash (hex digits n) = true.
Proof.
  revert n. induction digits as [|digits IH]; intros n; [reflexivity|].
  simpl. rewrite no_slash_append, IH. simpl.
  unfold hex_digit. destruct (N.to_nat (n mod 16)) as [|k]; [reflexivity|].
  do 15 (destruct k as [|k]; [reflexivity|]). reflexivity.
Qed.

Lemma no_slash_uuid (n : N) : no_slash (uuid_string n) = true.
Proof.
  unfold uuid_string. rewrite !no_slash_append, !no_slash_hex. reflexivity.
Qed.

(** The names of the three files are plain. *)
Lemma plain_file_name (c : ascii) (kind extension : string) (n : N) :
  Path.is_slash c = false -> Ascii.eqb c "." = false ->
  no_slash kind = true -> no_slash extension = true ->
  plain_name (String c kind +:+ uuid_string n +:+ extension) = true.
Proof.
  intros Hc Hdot Hkind Hext.
  change (String c kind +:+ uuid_string n +:+ extension)
    with (String c (kind +:+ uuid_string n +:+ extension)).
  unfold plain_name. simpl. rewrite Hc, Hdot, !no_slash_append, Hkind, Hext, no_slash_uuid.
  reflexivity.
Qed.

Lemma inside_workspace_file (dir : string) (n : N) :
  inside dir (path_join dir ("audio-" +:+ uuid_string n +:+ ".mp3")) = true /\
  inside dir (path_join dir ("image-" +:+ uuid_string n +:+ ".png")) = true /\
  inside dir (path_join dir ("video-" +:+ uuid_string n +:+ ".mp4")) = true.
Proof.
  repeat split; apply inside_path_join; now apply plain_file_name.
Qed.

(** The prefix of the workspace for some temporary directories, and a
    join that climbs. *)
Example path_join_normalizes :
  path_join "/" "agentic-" = "/agentic-" /\
  path_join "/tmp" "agentic-" = "/tmp/agentic-" /\
  path_join "/tmp/" "agentic-" = "/tmp/agentic-" /\
  path_join "/var//folders/./T/" "agentic-" = "/var/folders/T/agentic-" /\
  path_join EmptyString "agentic-" = "agentic-" /\
  path_join "/tmp/agentic-a1b2c3" "../x" = "/tmp/x" /\
  inside "/tmp/agentic-a1b2c3" "/tmp/agentic-a1b2c3/../x" = false /\
  inside "/tmp/agentic-a1b2c3" "/tmp/agentic-a1b2c3x" = false /\
  inside "/tmp//agentic-a1b2c3/" "/tmp/agentic-a1b2c3/./audio.mp3" = true.
Proof. repeat split. Qed.

(** A file of the workspace, or the workspace itself, lies inside it. *)
Ltac workspace_file :=
  first [ apply inside_itself
        | apply inside_path_join; apply plain_file_name; reflexivity ].

Ltac not_outside H :=
  first [ rewrite inside_itself in H
        | rewrite inside_path_join in H by (apply plain_file_name; reflexivity) ];
  discriminate H.

(** X11.  When no temporary directory can be made, [synthesizeVideo] throws
    that error after this one call: no file is written, ffmpeg is not
    run and no removal is attempted. *)
Theorem synthesizeVideo_without_workspace
    (w : World) (audio image : Buffer) (s : RunState) (e : Exn) :
  fs_mkdtemp w (workspace_prefix w) = Throw e ->
  synthesizeVideo w audio image s
  = (record_call (CallMkdtemp (workspace_prefix w)) s, Throw e).
Proof.
  intros Hmk. unfold synthesizeVideo, bind, mkdtemp.
  fold (workspace_prefix w). rewrite Hmk. reflexivity.
Qed.

Lemma synthesizeVideo_without_workspace_witness :
  synthesizeVideo MoreExamples.no_tmpdir [x49]%byte [x89]%byte
    (Examples.start MoreExamples.no_tmpdir)
  = (record_call (CallMkdtemp "/tmp/agentic-") (Examples.start MoreExamples.no_tmpdir),
     Throw (JsError "ENOSPC: no space left on device")).
Proof.
  apply (synthesizeVideo_without_workspace MoreExamples.no_tmpdir).
  reflexivity.
Defined.

(** X12.  Once the workspace exists, the audio is written, then the image,
    then ffmpeg runs on the two files, then the video is read back:
    each step only when the ones before resolved, and the removal of
    the workspace after the last step made.  The function returns the
    bytes read back, or throws the error of the first step that
    failed. *)
Theorem synthesizeVideo_stops_at_the_first_failure
    (w : World) (audio image : Buffer) (s : RunState) (dir : string) :
  fs_mkdtemp w (workspace_prefix w) = Ok dir ->
  let ap := audio_path w (st_uuids s) dir in
  let ip := image_path w (st_uuids s) dir in
  let vp := video_path w (st_uuids s) dir in
  let cmd := mux_command ip ap vp in
  st_calls (fst (synthesizeVideo w audio image s))
  = st_calls s
    ++ CallMkdtemp (workspace_prefix w)
    :: until_first_failure
         [ (CallWriteFile ap audio, is_ok (fs_writeFile w ap audio));
           (CallWriteFile ip image, is_ok (fs_writeFile w ip image));
           (CallFfmpeg cmd, is_ok (ffmpeg_save w cmd));
           (CallReadFile vp, is_ok (fs_readFile w vp)) ]
    ++ [ CallRm dir true true ] /\
  snd (synthesizeVideo w audio image s)
  = match fs_writeFile w ap audio, fs_writeFile w ip image, ffmpeg_save w cmd with
    | Throw e, _, _ => Throw e
    | Ok _, Throw e, _ => Throw e
    | Ok _, Ok _, Throw e => Throw e
    | Ok _, Ok _, Ok _ => fs_readFile w vp
    end.
Proof.
  intros Hmk. cbv zeta. destruct s as [log updates calls fs uuids].
  unfold synthesizeVideo, bind, mkdtemp, random_uuid.
  fold (workspace_prefix w). rewrite Hmk. simpl.
  unfold try_finally, synthesizeVideo_finally, catch_undefined, rm_recursive_force,
    synthesizeVideo_try, bind, writeFile, ffmpeg_run, readFile, call, ret.
  fold (audio_path w uuids dir) (image_path w uuids dir) (video_path w uuids dir).
  fold (mux_command (image_path w uuids dir) (audio_path w uuids dir)
          (video_path w uuids dir)).
  simpl.
  destruct (fs_writeFile w (audio_path w uuids dir) audio) as [[]|e1]; simpl.
  2: { destruct (fs_rm w dir); simpl; split; try reflexivity;
       rewrite <- !app_assoc; reflexivity. }
  destruct (fs_writeFile w (image_path w uuids dir) image) as [[]|e2]; simpl.
  2: { destruct (fs_rm w dir); simpl; split; try reflexivity;
       rewrite <- !app_assoc; reflexivity. }
  destruct (ffmpeg_save w _) as [[]|e3]; simpl.
  2: { destruct (fs_rm w dir); simpl; split; try reflexivity;
       rewrite <- !app_assoc; reflexivity. }
  destruct (fs_readFile w _) as [video|e4]; simpl.
  all: destruct (fs_rm w dir); simpl; split; try reflexivity;
    rewrite <- !app_assoc; reflexivity.
Qed.

Lemma synthesizeVideo_sequence_witness :
  st_calls (fst (synthesizeVideo Examples.ffmpeg_fails [x49]%byte [x89]%byte
                   (Examples.start Examples.ffmpeg_fails)))
  = [ CallMkdtemp "/tmp/agentic-";
      CallWriteFile "/tmp/agentic-a1b2c3/audio-00000000-0000-0000-0000-000000000000.mp3" [x49]%byte;
      CallWriteFile "/tmp/agentic-a1b2c3/image-00000000-0000-0000-0000-000000000001.png" [x89]%byte;
      CallFfmpeg (mux_command "/tmp/agentic-a1b2c3/image-00000000-0000-0000-0000-000000000001.png"
                    "/tmp/agentic-a1b2c3/audio-00000000-0000-0000-0000-000000000000.mp3"
                    "/tmp/agentic-a1b2c3/video-00000000-0000-0000-0000-000000000002.mp4");
      CallRm "/tmp/agentic-a1b2c3" true true ] /\
  snd (synthesizeVideo Examples.ffmpeg_fails [x49]%byte [x89]%byte
         (Examples.start Examples.ffmpeg_fails))
  = Throw (JsError "ffmpeg exited with code 1").
Proof.
  apply (synthesizeVideo_stops_at_the_first_failure Examples.ffmpeg_fails
           [x49]%byte [x89]%byte (Examples.start Examples.ffmpeg_fails)
           "/tmp/agentic-a1b2c3").
  reflexivity.
Defined.

(** X13.  When the removal resolves, the file system after [synthesizeVideo]
    is the one before it without what was inside the workspace: the
    three files are gone, and no path outside the workspace was added
    or removed. *)
Theorem synthesizeVideo_restores_the_file_system
    (w : World) (audio image : Buffer) (s : RunState) (dir : string) :
  fs_mkdtemp w (workspace_prefix w) = Ok dir ->
  fs_rm w dir = Ok tt ->
  st_fs (fst (synthesizeVideo w audio image s))
  = filter (fun p => inside dir p = false) (st_fs s).
Proof.
  intros Hmk Hrm. destruct s as [log updates calls fs uuids].
  unfold synthesizeVideo, bind, mkdtemp, random_uuid.
  fold (workspace_prefix w). rewrite Hmk. simpl.
  unfold try_finally, synthesizeVideo_finally, catch_undefined, rm_recursive_force,
    synthesizeVideo_try, bind, writeFile, ffmpeg_run, readFile, call, ret.
  pose proof (inside_itself dir) as Hdir.
  destruct (inside_workspace_file dir (randomUUID w uuids)) as (Haudio & _ & _).
  destruct (inside_workspace_file dir (randomUUID w (S uuids))) as (_ & Himage & _).
  destruct (inside_workspace_file dir (randomUUID w (S (S uuids)))) as (_ & _ & Hvideo).
  simpl.
  destruct (fs_writeFile w _ audio) as [[]|e1]; simpl;
    [destruct (fs_writeFile w _ image) as [[]|e2]; simpl;
     [destruct (ffmpeg_save w _) as [[]|e3]; simpl;
      [destruct (fs_readFile w _) as [video|e4]; simpl|]|]|].
  all: rewrite Hrm; simpl.
  all: apply set_eq; intros p.
  all: rewrite !elem_of_filter, !elem_of_union, !elem_of_singleton.
  all: split; [intros [Hout Hp] | intros [Hout Hp]; auto 10].
  all: split; [exact Hout|].
  all: repeat (destruct Hp as [->|Hp]; [congruence|]); try exact Hp.
  all: subst; congruence.
Qed.

Lemma synthesizeVideo_restores_witness :
  st_fs (fst (synthesizeVideo Examples.healthy [x49]%byte [x89]%byte
                (Examples.start Examples.healthy)))
  = filter (fun p => inside "/tmp/agentic-a1b2c3" p = false)
      (st_fs (Examples.start Examples.healthy)).
Proof.
  apply (synthesizeVideo_restores_the_file_system Examples.healthy).
  - reflexivity.
  - reflexivity.
Defined.

(** ** The answers of the route before the first stage *)

(** X14.  With a required variable missing the route answers 500 at once, and
    the message names the missing variables, separated by commas, in
    the order of [REQUIRED_ENV_VARS]. *)
Theorem POST_names_the_missing_variables (w : World) :
  ensureEnv w <> [] ->
  POST_run w
  = (initial_state w,
     Ok (mkResponse
           (Failure ("Missing required environment variables: "
                     +:+ Js.join ", " (ensureEnv w))
                    cloneStepLog)
           500)).
Proof.
  intros Hmissing. unfold POST_run, try_catch, POST_try.
  destruct (ensureEnv w) as [|key rest] eqn:E; [congruence|].
  reflexivity.
Qed.

Lemma POST_missing_variables_witness :
  POST_run (Examples.with_env Examples.healthy
              (delete "GOOGLE_CLIENT_ID" (delete "GOOGLE_REFRESH_TOKEN" Examples.full_env)))
  = (initial_state (Examples.with_env Examples.healthy
                      (delete "GOOGLE_CLIENT_ID"
                         (delete "GOOGLE_REFRESH_TOKEN" Examples.full_env))),
     Ok (mkResponse
           (Failure
              "Missing required environment variables: GOOGLE_CLIENT_ID, GOOGLE_REFRESH_TOKEN"
              cloneStepLog)
           500)).
Proof.
  etransitivity.
  - apply (POST_names_the_missing_variables
             (Examples.with_env Examples.healthy
                (delete "GOOGLE_CLIENT_ID"
                   (delete "GOOGLE_REFRESH_TOKEN" Examples.full_env)))).
    vm_compute. discriminate.
  - vm_compute. reflexivity.
Defined.

(** X15.  A body whose topic is a string of fewer than 8 characters is
    answered with 400, no stage touched, and the message starts with the
    text the schema gives for the topic. *)
Theorem POST_short_topic_message
    (w : World) (fields : list (string * Json)) (t : string) :
  ensureEnv w = [] ->
  request_json w = Ok (JObj fields) ->
  get_field fields "topic" = Some (JStr t) ->
  Z.of_nat (String.length t) < 8 ->
  exists others,
    POST_run w
    = (initial_state w,
       Ok (mkResponse
             (Failure (Js.join "; " ("Topic must be at least 8 characters." :: others))
                      cloneStepLog)
             400)).
Proof.
  intros Henv Hjson Htopic Hshort.
  unfold POST_run, try_catch, POST_try, bind, await.
  rewrite Henv, Hjson. simpl Nat.ltb. cbv iota.
  rewrite safeParse_object. cbv zeta. rewrite Htopic.
  unfold z_string at 1.
  replace (Z.of_nat (String.length t) <? 8) with true
    by (symmetry; apply Z.ltb_lt; exact Hshort).
  simpl. eexists. reflexivity.
Qed.

Lemma POST_short_topic_message_witness :
  exists others,
    POST_run (Examples.with_request Examples.healthy (Ok Examples.short_topic))
    = (initial_state (Examples.with_request Examples.healthy (Ok Examples.short_topic)),
       Ok (mkResponse
             (Failure (Js.join "; " ("Topic must be at least 8 characters." :: others))
                      cloneStepLog)
             400)).
Proof.
  apply (POST_short_topic_message
           (Examples.with_request Examples.healthy (Ok Examples.short_topic))
           [ ("topic", JStr "Tides"); ("tone", JStr "Educational");
             ("durationSeconds", JNum (Finite 120)); ("audience", JStr "General");
             ("callToAction", JStr "Subscribe!") ] "Tides").
  - reflexivity.
  - reflexivity.
  - reflexivity.
  - simpl. lia.
Defined.

(** ** The calls of a request *)

Ltac kinds_compute :=
  cbv [fst st_calls record_call update_fs app map call_kind List.filter negb is_rm
       pipeline_order initial_state].

(** X16.  The calls of any request, the removal of the workspace left aside,
    are a beginning of the fixed order: two chat requests, speech and
    image, the directory, the two writes, ffmpeg, the read, the upload.
    No stage calls out before the one before it has answered. *)
Theorem POST_calls_follow_the_pipeline_order (w : World) :
  exists rest,
    pipeline_order
    = List.filter (fun k => negb (is_rm k))
        (map call_kind (st_calls (fst (POST_run w))))
      ++ rest.
Proof.
  destruct (POST_run w) as [s r] eqn:H.
  route_run H.
  all: injection H as <- <-.
  all: kinds_compute; eexists; reflexivity.
Qed.

(** X17.  The upload is made at most once, and no call follows it. *)
Theorem POST_uploads_once_and_last (w : World) (req : InsertRequest) :
  In (CallInsert req) (st_calls (fst (POST_run w))) ->
  exists before,
    st_calls (fst (POST_run w)) = before ++ [CallInsert req] /\
    Forall (fun c => is_insert c = None) before.
Proof.
  destruct (POST_run w) as [s r] eqn:H.
  route_run H.
  all: injection H as <- <-.
  all: intros Hin; calls_compute_in Hin.
  all: repeat (destruct Hin as [Hin|Hin]; [try discriminate Hin|]); try contradiction.
  all: injection Hin as <-.
  all: cbv [fst st_calls record_call update_fs app initial_state].
  all: eexists [_; _; _; _; _; _; _; _; _; _].
  all: split; [reflexivity|repeat constructor].
Qed.

Lemma POST_uploads_once_witness :
  exists before,
    st_calls (fst (POST_run Examples.healthy))
    = before
      ++ [ CallInsert
             (upload_request Examples.healthy [x00; x00; x00; x18]%byte
                "History of bridges | Educational explainer"
                (Js.slice (video_description "Bridges span rivers and time."
                             "Subscribe!" "General") 0 4800)
                [ "AI"; "Automation"; "YouTube Agent"; "History of bridges" ]) ] /\
    Forall (fun c => is_insert c = None) before.
Proof.
  apply (POST_uploads_once_and_last Examples.healthy).
  vm_compute. do 10 right. left. reflexivity.
Defined.

(** X18.  Every operation on files that a request makes stays inside the
    directory that [mkdtemp] gave it: the two writes, the inputs and
    the output of ffmpeg, the read, and the one removal, which is
    recursive and forced and aims at that directory. *)
Theorem POST_touches_only_its_workspace (w : World) (c : Call) :
  In c (st_calls (fst (POST_run w))) ->
  match c with
  | CallWriteFile p _ | CallReadFile p =>
      exists dir, fs_mkdtemp w (workspace_prefix w) = Ok dir /\ inside dir p = true
  | CallFfmpeg cmd =>
      exists dir,
        fs_mkdtemp w (workspace_prefix w) = Ok dir /\
        inside dir (ff_output cmd) = true /\
        Forall (fun input => inside dir (fst input) = true) (ff_inputs cmd)
  | CallRm p recursive force =>
      fs_mkdtemp w (workspace_prefix w) = Ok p /\ recursive = true /\ force = true
  | CallMkdtemp prefix => prefix = workspace_prefix w
  | _ => True
  end.
Proof.
  destruct (POST_run w) as [s r] eqn:H.
  route_run H.
  all: injection H as <- <-.
  all: intros Hin; calls_compute_in Hin; cbv [initial_state st_calls] in Hin.
  all: repeat (destruct Hin as [<-|Hin]; [|]); try contradiction.
  all: try exact I.
  all: try reflexivity.
  all: unfold workspace_prefix.
  all: try (split; [eassumption|split; reflexivity]).
  all: try (eexists; split; [eassumption|]; workspace_file).
  all: eexists; split; [eassumption|]; cbn [ff_output ff_inputs].
  all: split; [workspace_file|].
  all: repeat (apply List.Forall_cons; [cbn [fst]; workspace_file|]).
  all: apply List.Forall_nil.
Qed.

Lemma POST_workspace_witness :
  exists dir,
    fs_mkdtemp Examples.healthy (workspace_prefix Examples.healthy) = Ok dir /\
    inside dir "/tmp/agentic-a1b2c3/video-00000000-0000-0000-0000-000000000002.mp4" = true.
Proof.
  apply (POST_touches_only_its_workspace Examples.healthy
           (CallReadFile "/tmp/agentic-a1b2c3/video-00000000-0000-0000-0000-000000000002.mp4")).
  vm_compute. do 8 right. left. reflexivity.
Defined.

(** ** What the responses carry *)

Ltac use_truthy :=
  repeat match goal with
         | H : Js.falsy _ = false |- _ =>
             apply falsy_false in H; destruct H as [? ?]
         end.

(** X19.  A response that says success comes with status 200 and with the
    four stages done, and its fields are what the collaborators gave:
    the draft is the text of the first chat answer, the enhanced script
    the text of the second, asked with that draft, the YouTube URL is
    the watch URL of the identifier returned for the upload made last,
    and the video URL is the data URL of the bytes uploaded. *)
Theorem POST_success_carries_the_results
    (w : World) (s : RunState) (result : PipelineResult) (log : list StepLog)
    (code : Z) :
  POST_run w = (s, Ok (mkResponse (Success result log) code)) ->
  code = 200 /\
  map status log = [done; done; done; done] /\
  exists json data req videoId,
    request_json w = Ok json /\
    requestSchema_safeParse (zod_error_map w) json = ParseSuccess data /\
    chat_completions_create w "gpt-4o-mini" draft_system
      (draft_user w (topic data) (audience data) (tone data) (durationSeconds data))
    = Ok (Some (scriptDraft result)) /\
    chat_completions_create w "gpt-4o" enhance_system
      (enhance_user (topic data) (audience data) (tone data) (callToAction data)
         (scriptDraft result))
    = Ok (Some (enhancedScript result)) /\
    scriptDraft result <> EmptyString /\
    enhancedScript result <> EmptyString /\
    last (st_calls s) = Some (CallInsert req) /\
    youtube_videos_insert w req = Ok (Some videoId) /\
    videoId <> EmptyString /\
    youtubeUrl result = watch_url videoId /\
    videoUrl result = "data:video/mp4;base64," +:+ buffer_to_base64 w (ins_media req).
Proof.
  intros H. route_run H.
  all: try discriminate H.
  all: injection H as <- <- <- <-.
  all: use_truthy.
  all: split; [reflexivity|]. all: split; [reflexivity|].
  all: eexists _, _, _, _.
  all: split; [reflexivity|]. all: split; [eassumption|].
  all: cbv [scriptDraft enhancedScript youtubeUrl videoUrl].
  all: split; [congruence|]. all: split; [congruence|].
  all: split; [assumption|]. all: split; [assumption|].
  all: split; [reflexivity|].
  all: split; [etransitivity; [eassumption|f_equal; eassumption]|].
  all: split; [assumption|].
  all: split; reflexivity.
Qed.

Lemma POST_success_witness :
  exists json data req videoId,
    request_json Examples.healthy = Ok json /\
    requestSchema_safeParse (zod_error_map Examples.healthy) json
    = ParseSuccess data /\
    youtube_videos_insert Examples.healthy req = Ok (Some videoId) /\
    "https://www.youtube.com/watch?v=dQw4w9WgXcQ" = watch_url videoId.
Proof.
  eassert (POST_run Examples.healthy = (_, Ok (mkResponse (Success _ _) _))) as E
    by (vm_compute; reflexivity).
  destruct (POST_success_carries_the_results Examples.healthy _ _ _ _ E)
    as (_ & _ & json & data & req & videoId & Hjson & Hdata & _ & _ & _ & _ & _
        & Hinsert & _ & Hurl & _).
  exists json, data, req, videoId.
  repeat split; assumption.
Defined.

(** X20.  In a response that says failure, a stage in error has the message
    of the response as its detail, and there is at most one such
    stage. *)
Theorem POST_failure_message_is_the_stage_detail
    (w : World) (s : RunState) (message : string) (log : list StepLog) (code : Z) :
  POST_run w = (s, Ok (mkResponse (Failure message log) code)) ->
  (forall step, In step log -> status step = error -> detail step = Some message) /\
  (length (List.filter (fun step => is_error (status step)) log) <= 1)%nat /\
  (code = 400 \/ code = 500).
Proof.
  intros H. route_run H.
  all: try discriminate H.
  all: injection H as <- <- <- <-.
  all: split; [|split; [log_compute; cbv; lia | auto]].
  all: intros step Hin Herr; log_compute_in Hin; cbv [In] in Hin.
  all: repeat (destruct Hin as [<-|Hin]; [first [discriminate Herr | reflexivity]|]).
  all: contradiction.
Qed.

Lemma POST_failure_message_witness :
  (forall step,
     In step
       [ mkStepLog "script" "Generate base script" done
           (Some "Draft complete (5 words).");
         mkStepLog "enhance" "Enhance script" done
           (Some "Enhanced script ready (5 words).");
         mkStepLog "video" "Render video" error (Some "Image generation failed.");
         mkStepLog "upload" "Publish to YouTube" idle None ] ->
     status step = error -> detail step = Some "Image generation failed.") /\
  (1 <= 1)%nat /\ (500 = 400 \/ 500 = 500).
Proof.
  eassert (POST_run Examples.no_image
           = (_, Ok (mkResponse (Failure "Image generation failed." _) 500))) as E
    by (vm_compute; reflexivity).
  exact (POST_failure_message_is_the_stage_detail Examples.no_image _ _ _ _ E).
Defined.

(** X21.  The route answers 400 exactly when the variables are there, the
    body was read and the schema refused it; the message is then the
    issues joined by a semicolon and no stage was touched.  Every other
    failure is a 500. *)
Theorem POST_answers_400_for_a_refused_body
    (w : World) (s : RunState) (response : Response) :
  POST_run w = (s, Ok response) ->
  (http_status response = 400 <->
   ensureEnv w = [] /\
   exists json issues,
     request_json w = Ok json /\
     requestSchema_safeParse (zod_error_map w) json = ParseFailure issues /\
     response = mkResponse (Failure (Js.join "; " issues) cloneStepLog) 400).
Proof.
  intros H. route_run H.
  all: injection H as <- <-.
  all: cbv [http_status].
  all: split; [intros Hcode; try discriminate Hcode|].
  all: try (split; [apply ensureEnv_empty; assumption|];
            eexists _, _; split; [reflexivity|]; split; [eassumption|reflexivity]).
  all: intros (Henv & json & issues & Hjson & Hparse & Hresp).
  all: first [discriminate Hresp | reflexivity].
Qed.

Lemma POST_answers_400_witness :
  http_status
    (mkResponse (Failure "Topic must be at least 8 characters." cloneStepLog) 400)
  = 400 <->
  ensureEnv (Examples.with_request Examples.healthy (Ok Examples.short_topic)) = [] /\
  exists json issues,
    request_json (Examples.with_request Examples.healthy (Ok Examples.short_topic))
    = Ok json /\
    requestSchema_safeParse
      (zod_error_map (Examples.with_request Examples.healthy (Ok Examples.short_topic)))
      json = ParseFailure issues /\
    mkResponse (Failure "Topic must be at least 8 characters." cloneStepLog) 400
    = mkResponse (Failure (Js.join "; " issues) cloneStepLog) 400.
Proof.
  eassert (POST_run (Examples.with_request Examples.healthy (Ok Examples.short_topic))
           = (_, Ok (mkResponse
                       (Failure "Topic must be at least 8 characters." cloneStepLog)
                       400))) as E
    by (vm_compute; reflexivity).
  exact (POST_answers_400_for_a_refused_body _ _ _ E).
Defined.

(** ** The files of a request *)

(** X22.  When removals resolve, a request leaves no file behind: every path
    in the file system after it was there before it, and a path that is
    gone was inside the directory [mkdtemp] gave to this request. *)
Theorem POST_leaves_no_file_behind (w : World) :
  (forall dir, fs_rm w dir = Ok tt) ->
  st_fs (fst (POST_run w)) ⊆ initial_fs w /\
  (forall p,
     p ∈ initial_fs w -> p ∉ st_fs (fst (POST_run w)) ->
     exists dir, fs_mkdtemp w (workspace_prefix w) = Ok dir /\ inside dir p = true).
Proof.
  intros Hrm.
  destruct (POST_run w) as [s r] eqn:H.
  route_run H.
  all: try match goal with
           | E : fs_rm _ _ = Throw _ |- _ => rewrite Hrm in E; discriminate E
           end.
  all: injection H as <- <-.
  all: cbv [fst st_fs record_call update_fs initial_state].
  all: split; [intros p | intros p Hin Hout].
  all: rewrite ?elem_of_filter, ?elem_of_union, ?elem_of_singleton in *.
  all: try (intros Hp; exact Hp).
  all: try contradiction.
  all: try (intros [Hkeep Hp];
            repeat (destruct Hp as [->|Hp]; [not_outside Hkeep|]); exact Hp).
  all: eexists; split; [unfold workspace_prefix; eassumption|].
  all: match goal with
       | |- inside ?d ?p = true =>
           destruct (inside d p) eqn:E; [reflexivity|exfalso; apply Hout; auto 10]
       end.
Qed.

Lemma POST_leaves_no_file_witness :
  st_fs (fst (POST_run Examples.healthy)) ⊆ initial_fs Examples.healthy.
Proof.
  apply (POST_leaves_no_file_behind Examples.healthy).
  intros dir. reflexivity.
Defined.

(** ** What is uploaded *)

(** X23.  The upload carries the title made of the topic and the tone, cut
    to 95 characters and left whole when it fits; the description made
    of the enhanced script, the call to action and the audience, cut to
    4800 characters; and the tags AI, Automation, YouTube Agent and the
    topic cut to 60 characters. *)
Theorem POST_upload_metadata (w : World) (req : InsertRequest) :
  In (CallInsert req) (st_calls (fst (POST_run w))) ->
  exists json data draft enhanced,
    request_json w = Ok json /\
    requestSchema_safeParse (zod_error_map w) json = ParseSuccess data /\
    chat_completions_create w "gpt-4o" enhance_system
      (enhance_user (topic data) (audience data) (tone data) (callToAction data) draft)
    = Ok (Some enhanced) /\
    ins_title req = Js.slice (video_title (topic data) (tone data)) 0 95 /\
    (Z.of_nat (String.length (video_title (topic data) (tone data))) <= 95 ->
     ins_title req = video_title (topic data) (tone data)) /\
    ins_description req
    = Js.slice (video_description enhanced (callToAction data) (audience data)) 0 4800 /\
    ins_tags req = [ "AI"; "Automation"; "YouTube Agent"; Js.slice (topic data) 0 60 ].
Proof.
  destruct (POST_run w) as [s r] eqn:H.
  route_run H.
  all: injection H as <- <-.
  all: intros Hin; calls_compute_in Hin; cbv [initial_state st_calls] in Hin.
  all: repeat (destruct Hin as [Hin|Hin]; [try discriminate Hin|]); try contradiction.
  all: injection Hin as <-.
  all: use_truthy.
  all: cbv [upload_request ins_title ins_description ins_tags].
  all: eexists _, _, _, _.
  all: split; [reflexivity|]. all: split; [eassumption|].
  all: split; [etransitivity; [eassumption|f_equal; eassumption]|].
  all: split; [reflexivity|].
  all: split; [|split; reflexivity].
  all: intros Hfit; rewrite slice_from_start by lia; apply js_take_all; lia.
Qed.

Lemma POST_upload_metadata_witness :
  exists json data draft enhanced,
    request_json Examples.healthy = Ok json /\
    requestSchema_safeParse (zod_error_map Examples.healthy) json
    = ParseSuccess data /\
    chat_completions_create Examples.healthy "gpt-4o" enhance_system
      (enhance_user (topic data) (audience data) (tone data) (callToAction data) draft)
    = Ok (Some enhanced) /\
    "History of bridges | Educational explainer"
    = Js.slice (video_title (topic data) (tone data)) 0 95 /\
    (Z.of_nat (String.length (video_title (topic data) (tone data))) <= 95 ->
     "History of bridges | Educational explainer"
     = video_title (topic data) (tone data)) /\
    Js.slice (video_description "Bridges span rivers and time." "Subscribe!"
                "General") 0 4800
    = Js.slice (video_description enhanced (callToAction data) (audience data)) 0 4800 /\
    [ "AI"; "Automation"; "YouTube Agent"; "History of bridges" ]
    = [ "AI"; "Automation"; "YouTube Agent"; Js.slice (topic data) 0 60 ].
Proof.
  apply (POST_upload_metadata Examples.healthy
           (upload_request Examples.healthy [x00; x00; x00; x18]%byte
              "History of bridges | Educational explainer"
              (Js.slice (video_description "Bridges span rivers and time."
                           "Subscribe!" "General") 0 4800)
              [ "AI"; "Automation"; "YouTube Agent"; "History of bridges" ])).
  vm_compute. do 10 right. left. reflexivity.
Defined.

(** X24.  The upload carries the bytes that were read back from the video
    file of the workspace; it is never marked as made for kids; its
    privacy status is the value of YOUTUBE_PRIVACY_STATUS when that
    variable is set, and unlisted otherwise, so a video is public only
    when the environment says so. *)
Theorem POST_upload_privacy_and_media (w : World) (req : InsertRequest) :
  In (CallInsert req) (st_calls (fst (POST_run w))) ->
  ins_privacyStatus req = default "unlisted" (env w !! "YOUTUBE_PRIVACY_STATUS") /\
  (ins_privacyStatus req = "public" ->
   env w !! "YOUTUBE_PRIVACY_STATUS" = Some "public") /\
  ins_madeForKids req = false /\
  ins_part req = [ "snippet"; "status" ] /\
  exists dir,
    fs_mkdtemp w (workspace_prefix w) = Ok dir /\
    fs_readFile w (video_path w 0 dir) = Ok (ins_media req).
Proof.
  destruct (POST_run w) as [s r] eqn:H.
  route_run H.
  all: injection H as <- <-.
  all: intros Hin; calls_compute_in Hin; cbv [initial_state st_calls] in Hin.
  all: repeat (destruct Hin as [Hin|Hin]; [try discriminate Hin|]); try contradiction.
  all: injection Hin as <-.
  all: cbv [upload_request ins_privacyStatus ins_madeForKids ins_part ins_media].
  all: split; [reflexivity|].
  all: split;
    [destruct (env w !! "YOUTUBE_PRIVACY_STATUS"); simpl;
     [intros ->; reflexivity | discriminate]|].
  all: split; [reflexivity|]. all: split; [reflexivity|].
  all: eexists; split; [unfold workspace_prefix; eassumption|].
  all: unfold video_path; assumption.
Qed.

Lemma POST_upload_privacy_witness :
  "public" = default "unlisted" (env MoreExamples.public !! "YOUTUBE_PRIVACY_STATUS") /\
  ("public" = "public" ->
   env MoreExamples.public !! "YOUTUBE_PRIVACY_STATUS" = Some "public").
Proof.
  eassert (In (CallInsert _) (st_calls (fst (POST_run MoreExamples.public)))) as Hin
    by (vm_compute; do 10 right; left; reflexivity).
  destruct (POST_upload_privacy_and_media MoreExamples.public _ Hin)
    as (Hstatus & Hpublic & _).
  split; [exact Hstatus | exact Hpublic].
Defined.

(** ** The shape of the log in a response *)

(** X25.  The log of every response is a run of done stages, then at most
    one stage in error, then idle stages: a response never shows a
    stage as working, and never a finished stage after an unfinished
    one. *)
Theorem POST_response_log_is_done_then_idle
    (w : World) (s : RunState) (response : Response) :
  POST_run w = (s, Ok response) ->
  exists finished waiting,
    map status (body_log (body response)) = repeat done finished ++ repeat idle waiting \/
    map status (body_log (body response))
    = repeat done finished ++ error :: repeat idle waiting.
Proof.
  intros H. route_run H.
  all: injection H as <- <-.
  all: cbv [body body_log]; log_compute.
  all: first
         [ solve [exists 0%nat, 4%nat; left; reflexivity]
         | solve [exists 4%nat, 0%nat; left; reflexivity]
         | solve [exists 0%nat, 3%nat; right; reflexivity]
         | solve [exists 1%nat, 2%nat; right; reflexivity]
         | solve [exists 2%nat, 1%nat; right; reflexivity]
         | solve [exists 3%nat, 0%nat; right; reflexivity] ].
Qed.

Lemma POST_response_log_witness :
  exists finished waiting,
    [done; done; error; idle] = repeat done finished ++ repeat idle waiting \/
    [done; done; error; idle] = repeat done finished ++ error :: repeat idle waiting.
Proof.
  eassert (POST_run Examples.no_image = (_, Ok _)) as E by (vm_compute; reflexivity).
  exact (POST_response_log_is_done_then_idle Examples.no_image _ _ E).
Defined.

(** ** The page *)

Lemma length_trimStart (s : string) :
  (String.length (Page.trimStart s) <= String.length s)%nat.
Proof.
  induction s as [|c s IH]; simpl; [lia|].
  destruct (Js.is_space c); simpl; lia.
Qed.

Lemma length_trimEnd (s : string) :
  (String.length (Page.trimEnd s) <= String.length s)%nat.
Proof.
  induction s as [|c s IH]; simpl; [lia|].
  destruct (Page.trimEnd s) as [|c' kept]; [destruct (Js.is_space c)|];
    simpl in *; lia.
Qed.

Lemma length_trim (s : string) :
  (String.length (Page.trim s) <= String.length s)%nat.
Proof.
  unfold Page.trim.
  pose proof (length_trimEnd (Page.trimStart s)). pose proof (length_trimStart s). lia.
Qed.

Lemma canSubmit_spec (st : Page.State) :
  Page.canSubmit st = true <->
  8 <= Z.of_nat (String.length (Page.trim (Page.topic st))) /\
  Page.isRunning st = false.
Proof.
  unfold Page.canSubmit. rewrite andb_true_iff, Z.leb_le, negb_true_iff. reflexivity.
Qed.

Lemma safeParse_of_valid_fields (em : ZodIssue -> string)
    (fields : list (string * Json)) (data : PipelineRequest) :
  valid_fields fields data ->
  requestSchema_safeParse em (JObj fields) = ParseSuccess data.
Proof.
  destruct data as [t o d a c]. intros Hvalid.
  unfold valid_fields, length_between in Hvalid. simpl in Hvalid.
  destruct Hvalid
    as (F1 & H1 & F2 & [H2 H2'] & F3 & [H3 H3'] & F4 & [H4 H4'] & F5 & [H5 H5']).
  rewrite safeParse_object. cbv zeta.
  rewrite (proj2 (z_string_accepts em 8 _ None _ (Some t))) by eauto 10.
  rewrite (proj2 (z_string_accepts em 3 _ (Some 64) _ (Some o))) by eauto 10.
  rewrite (proj2 (z_number_accepts em 30 900 _ (Some d))) by eauto 10.
  rewrite (proj2 (z_string_accepts em 3 _ (Some 120) _ (Some a))) by eauto 10.
  rewrite (proj2 (z_string_accepts em 3 _ (Some 180) _ (Some c))) by eauto 10.
  reflexivity.
Qed.

(** X26.  A form that the page lets through, with a duration that parses to a
    number from 30 to 900 and the other texts within their bounds,
    makes a body that the schema of the route accepts, with the fields
    as typed: a topic that enables the button is long enough for the
    route, since trimming only shortens it. *)
Theorem Page_body_of_a_valid_form_is_accepted
    (em : ZodIssue -> string) (parseInt10 : string -> option JsNumber)
    (st : Page.State) (seconds : Q) :
  Page.canSubmit st = true ->
  parseInt10 (Page.duration st) = Some (Finite seconds) ->
  (30 <= seconds <= 900)%Q ->
  length_between 3 64 (Page.tone st) ->
  length_between 3 120 (Page.audience st) ->
  length_between 3 180 (Page.callToAction st) ->
  requestSchema_safeParse em (Page.request_body parseInt10 st)
  = ParseSuccess (mkRequest (Page.topic st) (Page.tone st) seconds
                            (Page.audience st) (Page.callToAction st)).
Proof.
  intros Hsubmit Hparse Hseconds Htone Haudience Hcta.
  apply canSubmit_spec in Hsubmit as [Htopic _].
  pose proof (length_trim (Page.topic st)) as Htrim.
  unfold Page.request_body. apply safeParse_of_valid_fields.
  unfold valid_fields. simpl. rewrite Hparse. simpl.
  repeat split; try reflexivity; try tauto; try apply Htone; try apply Haudience;
    try apply Hcta.
  lia.
Qed.

Lemma Page_valid_form_witness :
  requestSchema_safeParse (fun _ => "Invalid input")
    (Page.request_body MoreExamples.parse_120 MoreExamples.filled)
  = ParseSuccess (mkRequest "  History of bridges  " "Educational" 120 "General"
                            "Subscribe!").
Proof.
  apply (Page_body_of_a_valid_form_is_accepted (fun _ => "Invalid input")
           MoreExamples.parse_120 MoreExamples.filled 120).
  - reflexivity.
  - reflexivity.
  - split; discriminate.
  - unfold length_between. simpl. lia.
  - unfold length_between. simpl. lia.
  - unfold length_between. simpl. lia.
Defined.

(** X27.  A duration that does not parse to a number is sent as [null], and
    the route refuses the body with the issue of a number expected and
    [null] received, whatever the other fields are. *)
Theorem Page_unparsed_duration_is_refused
    (em : ZodIssue -> string) (parseInt10 : string -> option JsNumber)
    (st : Page.State) :
  parseInt10 (Page.duration st) = None ->
  exists issues,
    requestSchema_safeParse em (Page.request_body parseInt10 st) = ParseFailure issues /\
    In (em (invalid_type "number" "null")) issues.
Proof.
  intros Hparse. unfold Page.request_body. rewrite safeParse_object. cbv zeta.
  simpl get_field. rewrite Hparse. simpl Page.json_number.
  destruct (z_string em _ None _) as [i1 o1],
    (z_string em _ (Some 64) _) as [i2 o2],
    (z_string em _ (Some 120) _) as [i4 o4],
    (z_string em _ (Some 180) _) as [i5 o5].
  simpl.
  destruct (i1 ++ i2 ++ em (invalid_type "number" "null") :: i4 ++ i5) as [|x l] eqn:E.
  - exfalso. apply app_eq_nil in E as [_ E]. apply app_eq_nil in E as [_ E].
    discriminate E.
  - eexists. split; [reflexivity|]. rewrite <- E.
    apply in_or_app. right. apply in_or_app. right. left. reflexivity.
Qed.

Lemma Page_unparsed_duration_witness :
  exists issues,
    requestSchema_safeParse (fun _ => "Invalid input")
      (Page.request_body (fun _ => None) MoreExamples.filled)
    = ParseFailure issues /\
    In "Invalid input" issues.
Proof.
  apply (Page_unparsed_duration_is_refused (fun _ => "Invalid input") (fun _ => None)
           MoreExamples.filled).
  reflexivity.
Defined.

(** X28.  The handler sends nothing and changes nothing when the button is
    not enabled; and while a request is on its way the button is not
    enabled, so a second submit sends no second request. *)
Theorem Page_onSubmit_sends_nothing_unless_enabled
    (parseInt10 : string -> option JsNumber) (fetch_run : Json -> Page.Fetched)
    (st : Page.State) :
  (Page.canSubmit st = false -> Page.onSubmit parseInt10 fetch_run st = (st, [])) /\
  Page.canSubmit (Page.pending st) = false /\
  Page.onSubmit parseInt10 fetch_run (Page.pending st) = (Page.pending st, []).
Proof.
  assert (Page.canSubmit (Page.pending st) = false) as Hpending.
  { unfold Page.canSubmit, Page.pending. simpl. apply andb_false_r. }
  split; [|split; [exact Hpending|]].
  - intros Hoff. unfold Page.onSubmit. rewrite Hoff. reflexivity.
  - unfold Page.onSubmit. rewrite Hpending. reflexivity.
Qed.

Lemma Page_onSubmit_disabled_witness :
  Page.onSubmit MoreExamples.parse_120 (fun _ => Page.FetchRejects JsThrown) Page.initial
  = (Page.initial, []).
Proof.
  apply (proj1 (Page_onSubmit_sends_nothing_unless_enabled MoreExamples.parse_120
                  (fun _ => Page.FetchRejects JsThrown) Page.initial)).
  reflexivity.
Defined.

(** X29.  After a submit that was let through, one body was sent, the page is
    no longer running and can be submitted again, the form is as it
    was, and never both a result and an error are shown: a result
    exactly when the response says success; the steps are the log of
    the response when one arrived and the initial steps otherwise. *)
Theorem Page_onSubmit_settles
    (parseInt10 : string -> option JsNumber) (fetch_run : Json -> Page.Fetched)
    (st : Page.State) :
  Page.canSubmit st = true ->
  let after := fst (Page.onSubmit parseInt10 fetch_run st) in
  let answer := fetch_run (Page.request_body parseInt10 st) in
  snd (Page.onSubmit parseInt10 fetch_run st) = [ Page.request_body parseInt10 st ] /\
  Page.isRunning after = false /\
  Page.canSubmit after = true /\
  (Page.topic after, Page.tone after, Page.duration after, Page.audience after,
   Page.callToAction after)
  = (Page.topic st, Page.tone st, Page.duration st, Page.audience st,
     Page.callToAction st) /\
  (Page.result after = None \/ Page.error after = None) /\
  (forall r, Page.result after = Some r <-> exists log, answer = Page.Payload (Success r log)) /\
  (Page.error after = None <-> exists r log, answer = Page.Payload (Success r log)) /\
  Page.steps after
  = match answer with
    | Page.Payload b => body_log b
    | _ => Page.INITIAL_STEPS
    end.
Proof.
  intros Hon. cbv zeta. unfold Page.onSubmit. rewrite Hon. simpl.
  apply canSubmit_spec in Hon as [Htopic Hidle].
  assert (forall st', Page.topic st' = Page.topic st -> Page.isRunning st' = false ->
                      Page.canSubmit st' = true) as Hagain.
  { intros st' Ht Hr. apply canSubmit_spec. rewrite Ht. auto. }
  destruct (fetch_run _) as [e|e|[r log|message log]]; simpl.
  all: split; [reflexivity|]. all: split; [reflexivity|].
  all: split; [apply Hagain; reflexivity|]. all: split; [reflexivity|].
  all: split; [auto|].
  all: split; [intros r'; split; [intros [= <-]; eauto | intros (l & [= <- <-]); reflexivity]|].
  all: split; [split; [intros [=]; eauto | intros (r' & l & [=]); reflexivity]|reflexivity].
Qed.

Lemma Page_onSubmit_settles_witness :
  Page.isRunning
    (fst (Page.onSubmit MoreExamples.parse_120
            (fun _ => Page.JsonRejects (JsError "Unexpected token < in JSON"))
            MoreExamples.filled)) = false /\
  Page.error
    (fst (Page.onSubmit MoreExamples.parse_120
            (fun _ => Page.JsonRejects (JsError "Unexpected token < in JSON"))
            MoreExamples.filled)) = Some "Unexpected token < in JSON".
Proof.
  split; [|reflexivity].
  apply (Page_onSubmit_settles MoreExamples.parse_120
           (fun _ => Page.JsonRejects (JsError "Unexpected token < in JSON"))
           MoreExamples.filled).
  reflexivity.
Defined.
